(** * CSV to PostgreSQL script conversion, and the dataframe summary

    A shallow embedding of [csv_sql.py] and [summary.py].

    Conventions of the model.
    - A Python [str] is a [string]; each [ascii] stands for the Unicode code
      point of the same number, so the text modelled is U+0000 .. U+00FF.
      On that range [str.lower], the regular expression class [\s] and the
      codecs below are given by their exact tables.
    - A file holds bytes ([list byte]); the file system is a finite map from
      paths to contents.  Paths are compared as strings.
    - [os.path] is [posixpath]; text files are written without newline
      translation (POSIX).
    - An exception is a value of [exn]; a function that can raise returns a
      [result]. *)

From Stdlib Require Import Strings.Ascii Strings.String Strings.Byte NArith ZArith Lia.
From stdpp Require Import gmap strings list sorting.

Local Open Scope Z_scope.

(** ** Characters and strings of the Python runtime *)

Module Py.

(** [Py_UNICODE_ISSPACE] on U+0000 .. U+00FF: TAB, LF, VT, FF, CR, the
    separators FS GS RS US, SPACE, NEL (U+0085) and NBSP (U+00A0). *)
Definition isspace (c : ascii) : bool :=
  let n := N_of_ascii c in
  ((9 <=? n) && (n <=? 13) || (28 <=? n) && (n <=? 32)
   || (n =? 133) || (n =? 160))%N.

(** [str.lower] on one code point of the range: A-Z and the Latin-1 capitals
    U+00C0 .. U+00DE (without the multiplication sign U+00D7) move up by 32. *)
Definition lower_char (c : ascii) : ascii :=
  let n := N_of_ascii c in
  if ((65 <=? n) && (n <=? 90)
      || (192 <=? n) && (n <=? 222) && negb (n =? 215))%N
  then ascii_of_N (n + 32) else c.

Fixpoint lower (s : string) : string :=
  match s with
  | EmptyString => EmptyString
  | String c r => String (lower_char c) (lower r)
  end.

(** [s.rfind(c)] for a one-character [c]: the highest index of [c] in [s],
    or -1. *)
Fixpoint rfind (c : ascii) (s : string) : Z :=
  match s with
  | EmptyString => -1
  | String a r =>
      let i := rfind c r in
      if 0 <=? i then i + 1 else if Ascii.eqb a c then 0 else -1
  end.

(** [s[i:]] for a nonnegative [i]. *)
Fixpoint slice_from (i : nat) (s : string) : string :=
  match i, s with
  | O, _ => s
  | S j, String _ r => slice_from j r
  | S _, EmptyString => EmptyString
  end.

(** [posixpath.basename]: [i = p.rfind('/') + 1; return p[i:]]. *)
Definition basename (p : string) : string :=
  let i := rfind "/" p + 1 in
  slice_from (Z.to_nat i) p.

(** [s.split(sep)] for a one-character separator: never the empty list. *)
Fixpoint split (sep : ascii) (s : string) : list string :=
  match s with
  | EmptyString => [EmptyString]
  | String c r =>
      if Ascii.eqb c sep then EmptyString :: split sep r
      else match split sep r with
           | h :: t => String c h :: t
           | [] => [String c EmptyString]
           end
  end.

(** [s.replace(old, new)] for a one-character [old]. *)
Fixpoint replace (old : ascii) (new : string) (s : string) : string :=
  match s with
  | EmptyString => EmptyString
  | String c r =>
      if Ascii.eqb c old then new +:+ replace old new r
      else String c (replace old new r)
  end.

(** [sep.join(parts)]. *)
Fixpoint join (sep : string) (parts : list string) : string :=
  match parts with
  | [] => EmptyString
  | [p] => p
  | p :: rest => p +:+ sep +:+ join sep rest
  end.

(** [re.sub(pattern, repl, s)] for a pattern that is a single character
    class: the scan goes left to right and every matching character is one
    match of length one. *)
Fixpoint re_sub_class (cls : ascii -> bool) (repl : string) (s : string)
  : string :=
  match s with
  | EmptyString => EmptyString
  | String c r =>
      if cls c then repl +:+ re_sub_class cls repl r
      else String c (re_sub_class cls repl r)
  end.

End Py.

(** ** Exceptions and results *)

Inductive exn : Set :=
  | FileNotFoundError
  | UnicodeDecodeError
  | UnicodeEncodeError
  | StopIteration
  | CsvError
  | ValueError
  | KeyError
  | IndexError
  | UnboundLocalError.

Inductive result (A : Type) : Type :=
  | Ok (a : A)
  | Raise (e : exn).
Arguments Ok {A} a.
Arguments Raise {A} e.

#[global] Instance result_ret : MRet result := fun A a => Ok a.
#[global] Instance result_bind : MBind result := fun A B k m =>
  match m with
  | Ok a => k a
  | Raise e => Raise e
  end.

#[global] Instance result_fmap : FMap result := fun A B f m =>
  match m with
  | Ok a => Ok (f a)
  | Raise e => Raise e
  end.

(** ** Text codecs and files *)

(** The values of the [encoding] argument that are modelled. *)
Inductive encoding : Set := UTF8 | Latin1 | ASCII.

(** The default of every [__encoding] parameter: ['utf-8']. *)
Definition default_encoding : encoding := UTF8.

Module Codec.

Definition is_continuation (b : byte) : bool :=
  ((128 <=? Byte.to_N b) && (Byte.to_N b <=? 191))%N.

(** Strict UTF-8 for U+0000 .. U+00FF: one byte below 0x80, and the lead
    bytes 0xC2 and 0xC3 with one continuation byte.  Every other sequence is
    rejected: it is ill-formed, or it encodes a code point above U+00FF,
    which lies outside the text modelled. *)
Fixpoint utf8_decode (bs : list byte) : option string :=
  match bs with
  | [] => Some EmptyString
  | b :: r =>
      let n := Byte.to_N b in
      if (n <? 128)%N then String (ascii_of_byte b) <$> utf8_decode r
      else if ((n =? 194) || (n =? 195))%N then
        match r with
        | b2 :: r2 =>
            if is_continuation b2
            then String (ascii_of_N ((n - 194) * 64 + Byte.to_N b2))
                   <$> utf8_decode r2
            else None
        | [] => None
        end
      else None
  end.

Definition utf8_encode_char (c : ascii) : list byte :=
  let n := N_of_ascii c in
  if (n <? 128)%N then [byte_of_ascii c]
  else [byte_of_ascii (ascii_of_N (192 + n / 64));
        byte_of_ascii (ascii_of_N (128 + n mod 64))].

Fixpoint utf8_encode (s : string) : list byte :=
  match s with
  | EmptyString => []
  | String c r => utf8_encode_char c ++ utf8_encode r
  end.

Fixpoint latin1_decode (bs : list byte) : string :=
  match bs with
  | [] => EmptyString
  | b :: r => String (ascii_of_byte b) (latin1_decode r)
  end.

Fixpoint latin1_encode (s : string) : list byte :=
  match s with
  | EmptyString => []
  | String c r => byte_of_ascii c :: latin1_encode r
  end.

Fixpoint ascii_decode (bs : list byte) : option string :=
  match bs with
  | [] => Some EmptyString
  | b :: r =>
      if (Byte.to_N b <? 128)%N
      then String (ascii_of_byte b) <$> ascii_decode r
      else None
  end.

Fixpoint ascii_encode (s : string) : option (list byte) :=
  match s with
  | EmptyString => Some []
  | String c r =>
      if (N_of_ascii c <? 128)%N
      then cons (byte_of_ascii c) <$> ascii_encode r
      else None
  end.

Definition decode (enc : encoding) (bs : list byte) : option string :=
  match enc with
  | UTF8 => utf8_decode bs
  | Latin1 => Some (latin1_decode bs)
  | ASCII => ascii_decode bs
  end.

Definition encode (enc : encoding) (s : string) : option (list byte) :=
  match enc with
  | UTF8 => Some (utf8_encode s)
  | Latin1 => Some (latin1_encode s)
  | ASCII => ascii_encode s
  end.

End Codec.

(** The file system: path to content.  A path is its string: two spellings
    of one file ([a.sql] and [./a.sql]) are two keys, and directories,
    permissions and other conditions of the operating system are not
    modelled. *)
Abbreviation filesystem := (gmap string (list byte)).

(** [open(path, newline='', encoding=enc)] and reading the file to its end:
    the decoded text.  The runtime decodes in chunks while the file is read;
    the model decodes the whole content at the [open].  The two differ only
    for a reader that stops before the end of a file whose tail does not
    decode ([_get_header] alone); [csv_postgresql] reads the file to its end
    in [_values_str] before it writes anything.  Of the ways an [open] can
    fail, the missing file is the one modelled. *)
Definition open_read (fs : filesystem) (path : string) (enc : encoding)
  : result string :=
  match fs !! path with
  | None => Raise FileNotFoundError
  | Some bytes =>
      match Codec.decode enc bytes with
      | Some text => Ok text
      | None => Raise UnicodeDecodeError
      end
  end.

(** [with open(path, 'w', encoding=enc) as f: f.write(text)].  The [open]
    creates or truncates the file; [write] encodes the whole text, and a
    text the codec cannot encode raises with the file left empty.  This is
    the one failure of the write that is modelled: an output name that
    cannot be opened has no counterpart here. *)
Definition open_write (fs : filesystem) (path : string) (enc : encoding)
    (text : string) : filesystem * result unit :=
  match Codec.encode enc text with
  | Some bytes => (<[path := bytes]> fs, Ok tt)
  | None => (<[path := []]> fs, Raise UnicodeEncodeError)
  end.

(** Iterating a text file opened with [newline='']: the lines, each with its
    line ending ([\n], [\r] or [\r\n]) kept. *)
Fixpoint lines_acc (cur : string) (s : string) : list string :=
  match s with
  | EmptyString => if String.eqb cur EmptyString then [] else [cur]
  | String c r =>
      if Ascii.eqb c "010" then (cur +:+ String c EmptyString) :: lines_acc EmptyString r
      else if Ascii.eqb c "013" then
        match r with
        | String c2 r2 =>
            if Ascii.eqb c2 "010"
            then (cur +:+ String c (String c2 EmptyString)) :: lines_acc EmptyString r2
            else (cur +:+ String c EmptyString) :: lines_acc EmptyString r
        | EmptyString => [cur +:+ String c EmptyString]
        end
      else lines_acc (cur +:+ String c EmptyString) r
  end.

Definition lines (text : string) : list string := lines_acc EmptyString text.

(** A Python iterator that has been run to its end: the items it yields, and
    the exception that ends it when that is not the plain exhaustion. *)
Record iterator (A : Type) : Type := Iterator {
  items : list A;
  ending : option exn
}.
Arguments Iterator {A} items ending.
Arguments items {A} i.
Arguments ending {A} i.

(** [next(it)]: the first item and the iterator advanced past it. *)
Definition next {A} (it : iterator A) : result (A * iterator A) :=
  match items it with
  | x :: rest => Ok (x, Iterator rest (ending it))
  | [] =>
      match ending it with
      | Some e => Raise e
      | None => Raise StopIteration
      end
  end.

(** [for x in it: acc = body(acc, x)]. *)
Definition for_each {A B} (it : iterator A) (body : B -> A -> B) (acc : B)
  : result B :=
  let acc' := fold_left body (items it) acc in
  match ending it with
  | Some e => Raise e
  | None => Ok acc'
  end.

(** ** The [csv] module: [csv.reader] with the default (excel) dialect

    The reader of CPython's [_csv] module (3.11 and later, where a NUL is an
    ordinary character), with the default dialect: delimiter comma, the
    double quote as quote character, doubled quotes, no escape character, not strict. *)

Module csv.

Inductive state : Set :=
  | START_RECORD
  | START_FIELD
  | IN_FIELD
  | IN_QUOTED_FIELD
  | QUOTE_IN_QUOTED_FIELD
  | EAT_CRNL.

(** A character of the line, or the end of the line. *)
Inductive input : Set :=
  | Ch (c : ascii)
  | EOL.

Record parser : Set := Parser {
  st : state;
  fields : list string;
  field : string;
  field_len : N
}.

(** [parse_reset]. *)
Definition reset : parser := Parser START_RECORD [] EmptyString 0.

Definition field_limit : N := 131072.

Definition set_state (s : state) (p : parser) : parser :=
  Parser s (fields p) (field p) (field_len p).

(** [parse_save_field]: the field read so far ends the list of fields. *)
Definition save_field (p : parser) : parser :=
  Parser (st p) (fields p ++ [field p]) EmptyString 0.

(** [parse_add_char]: fails on a field longer than the limit. *)
Definition add_char (c : ascii) (p : parser) : result parser :=
  if (field_limit <=? field_len p)%N then Raise CsvError
  else Ok (Parser (st p) (fields p) (field p +:+ String c EmptyString)
             (field_len p + 1)).

Definition dquote : ascii := "034".

Definition is_newline (c : ascii) : bool :=
  Ascii.eqb c "010" || Ascii.eqb c "013".

(** The state after the end of a field at a line break or at [EOL]. *)
Definition after_break (i : input) : state :=
  match i with
  | EOL => START_RECORD
  | Ch _ => EAT_CRNL
  end.

Definition start_field (p : parser) (i : input) : result parser :=
  match i with
  | EOL => Ok (set_state (after_break i) (save_field p))
  | Ch c =>
      if is_newline c then Ok (set_state (after_break i) (save_field p))
      else if Ascii.eqb c dquote then Ok (set_state IN_QUOTED_FIELD p)
      else if Ascii.eqb c "," then Ok (save_field p)
      else set_state IN_FIELD <$> add_char c p
  end.

(** [parse_process_char]. *)
Definition process_char (p : parser) (i : input) : result parser :=
  match st p with
  | START_RECORD =>
      match i with
      | EOL => Ok p
      | Ch c =>
          if is_newline c then Ok (set_state EAT_CRNL p)
          else start_field (set_state START_FIELD p) i
      end
  | START_FIELD => start_field p i
  | IN_FIELD =>
      match i with
      | EOL => Ok (set_state (after_break i) (save_field p))
      | Ch c =>
          if is_newline c then Ok (set_state (after_break i) (save_field p))
          else if Ascii.eqb c "," then Ok (set_state START_FIELD (save_field p))
          else add_char c p
      end
  | IN_QUOTED_FIELD =>
      match i with
      | EOL => Ok p
      | Ch c =>
          if Ascii.eqb c dquote then Ok (set_state QUOTE_IN_QUOTED_FIELD p)
          else add_char c p
      end
  | QUOTE_IN_QUOTED_FIELD =>
      match i with
      | EOL => Ok (set_state (after_break i) (save_field p))
      | Ch c =>
          if Ascii.eqb c dquote then set_state IN_QUOTED_FIELD <$> add_char c p
          else if Ascii.eqb c "," then Ok (set_state START_FIELD (save_field p))
          else if is_newline c then Ok (set_state (after_break i) (save_field p))
          else set_state IN_FIELD <$> add_char c p
      end
  | EAT_CRNL =>
      match i with
      | EOL => Ok (set_state START_RECORD p)
      | Ch c => if is_newline c then Ok p else Raise CsvError
      end
  end.

(** The characters of one line, then [EOL]. *)
Fixpoint process_line (p : parser) (line : string) : result parser :=
  match line with
  | EmptyString => process_char p EOL
  | String c r => p' ← process_char p (Ch c); process_line p' r
  end.

Definition at_start (p : parser) : bool :=
  match st p with START_RECORD => true | _ => false end.

Definition in_quoted (p : parser) : bool :=
  match st p with IN_QUOTED_FIELD => true | _ => false end.

(** The calls of [Reader_iternext] one after the other: a record is complete
    when a line leaves the parser in [START_RECORD]; at the end of the input
    an unfinished field closes the last record. *)
Fixpoint read_rows (p : parser) (ls : list string) : iterator (list string) :=
  match ls with
  | [] =>
      if negb (field_len p =? 0)%N || in_quoted p
      then Iterator [fields (save_field p)] None
      else Iterator [] None
  | l :: rest =>
      match process_line p l with
      | Raise e => Iterator [] (Some e)
      | Ok p' =>
          if at_start p'
          then let it := read_rows reset rest in
               Iterator (fields p' :: items it) (ending it)
          else read_rows p' rest
      end
  end.

(** [csv.reader(csvfile)] over the text of the open file. *)
Definition reader (csvfile : string) : iterator (list string) :=
  read_rows reset (lines csvfile).

End csv.

(** ** [csv_sql.py]: the identifier normaliser *)

(** The class [[\s-]]: a whitespace character or a hyphen. *)
Definition sep_class (c : ascii) : bool :=
  Py.isspace c || Ascii.eqb c "-".

(** [__sub(r'[\s-]', '_', s)]. *)
Definition sub_sep (s : string) : string := Py.re_sub_class sep_class "_" s.

(** [filename(file_path)]:
    [name = basename(file_path).split('.')[0].lower()], then the
    substitution. *)
Definition filename (file_path : string) : string :=
  let name := Py.lower (hd EmptyString (Py.split "." (Py.basename file_path))) in
  sub_sep name.

(** ** [csv_sql.py]: the fragments *)

Definition LF : string := String "010" EmptyString.
Definition TAB : string := String "009" EmptyString.
Definition DQ : string := String "034" EmptyString.
Definition SQ : string := "'".

(** [_get_header(file_path, __encoding)]. *)
Definition _get_header (fs : filesystem) (file_path : string)
    (__encoding : encoding) : result (list string) :=
  csvfile ← open_read fs file_path __encoding;
  let reader := csv.reader csvfile in
  '(header, _) ← next reader;
  Ok header.

(** [_column_def(header)]: the loop appends one formatted item per column to
    [temp]; the result is a tab and the items joined with [', \n\t']. *)
Definition _column_def (header : list string) : string :=
  let temp :=
    fold_left (fun temp item => temp ++ [DQ +:+ item +:+ DQ +:+ " TEXT"])
      header [] in
  TAB +:+ Py.join (", " +:+ LF +:+ TAB) temp.

(** The f-string of one field: [str(item)] of a [str] is the item; its
    single quotes are doubled and it is put between single quotes. *)
Definition quote_item (item : string) : string :=
  SQ +:+ Py.replace "'" (SQ +:+ SQ) item +:+ SQ.

(** [_values_str(file_path, __encoding)]. *)
Definition _values_str (fs : filesystem) (file_path : string)
    (__encoding : encoding) : result string :=
  csvfile ← open_read fs file_path __encoding;
  let reader := csv.reader csvfile in
  '(_, reader) ← next reader;
  format_string ←
    for_each reader
      (fun format_string row =>
         let tmp := Py.join ", " (map quote_item row) in
         format_string ++ [LF +:+ TAB +:+ "(" +:+ tmp +:+ ")"])
      [];
  Ok (Py.join ", " format_string).

(** ** [csv_sql.py]: the assembler *)

(** [csv_postgresql(file, schema_name, table_name, __encoding)].  An omitted
    [schema_name] or [table_name] is the empty string; an omitted
    [__encoding] is [default_encoding].  The result is the file system the
    call leaves and the outcome of the call. *)
Definition csv_postgresql (fs : filesystem) (file : string)
    (schema_name table_name : string) (__encoding : encoding)
  : filesystem * result unit :=
  let schema_name :=
    if (String.length schema_name =? 0)%nat then filename file
    else Py.lower (sub_sep schema_name) in
  let table_name :=
    if (String.length table_name =? 0)%nat then filename file
    else Py.lower (sub_sep table_name) in
  match _get_header fs file default_encoding with
  | Raise e => (fs, Raise e)
  | Ok header =>
      let _schema := "CREATE SCHEMA " +:+ schema_name in
      let drop_string :=
        "DROP TABLE IF EXISTS " +:+ schema_name +:+ "." +:+ table_name in
      let create_string :=
        "CREATE TABLE " +:+ schema_name +:+ "." +:+ table_name in
      let definition_string := _column_def header in
      let _table :=
        drop_string +:+ ";" +:+ LF +:+ create_string +:+ " (" +:+ LF
        +:+ definition_string +:+ LF +:+ ")" in
      let imain_string :=
        "INSERT INTO " +:+ schema_name +:+ "." +:+ table_name in
      let icolumns_string :=
        Py.join ", " (map (fun item => DQ +:+ item +:+ DQ) header) in
      match _values_str fs file default_encoding with
      | Raise e => (fs, Raise e)
      | Ok ivalues_string =>
          let _insert :=
            imain_string +:+ LF +:+ TAB +:+ "(" +:+ icolumns_string +:+ ")"
            +:+ LF +:+ "VALUES" +:+ ivalues_string in
          let ouput_string :=
            _schema +:+ ";" +:+ LF +:+ LF +:+ _table +:+ ";" +:+ LF +:+ LF
            +:+ _insert +:+ ";" in
          let output_name := filename file +:+ ".sql" in
          open_write fs output_name __encoding ouput_string
      end
  end.

(** ** [summary.py]

    The dataframe and the statistics of pandas are an interface: a frame is
    the list of its columns, each a name and a series, and the operations on
    a series are the fields of [Pandas].  A cell of the summary is a column
    name or a value computed by pandas.  The operations are total: the
    model is of frames whose columns admit every statistic asked of them (a
    mean or a percentile that pandas refuses, as of a text column, has no
    counterpart), and of frames with distinct column names. *)

Module summary.

Class Pandas : Type := {
  series : Type;
  value : Type;
  (** [str(s.dtype)] *)
  dtype_str : series -> value;
  (** [s.dropna().count()] *)
  non_null_count : series -> value;
  (** [len(s.unique())] *)
  unique_count : series -> value;
  (** [np.nan] *)
  nan : value;
  smin : series -> value;
  smax : series -> value;
  smean : series -> value;
  (** [s.quantile(q)], with [q] in percent; [s.quantile()] is [quantile 50] *)
  quantile : N -> series -> value;
  (** [len(s[s < v].unique())] *)
  count_below : series -> value -> value
}.

Inductive cell `{Pandas} : Type :=
  | Name (s : string)
  | Val (v : value).

Section DataframeInfo.
Context `{Pandas}.

(** A [pd.DataFrame]: the columns in order. *)
Definition dataframe : Type := list (string * series).

(** A [dict] with string keys, in insertion order. *)
Definition dict : Type := list (string * list cell).

(** [d[k] = v]: the value of an existing key is replaced in place, a new key
    goes to the end. *)
Fixpoint dict_set (d : dict) (k : string) (v : list cell) : dict :=
  match d with
  | [] => [(k, v)]
  | (k', v') :: rest =>
      if String.eqb k' k then (k', v) :: rest
      else (k', v') :: dict_set rest k v
  end.

(** [d[k]]. *)
Fixpoint dict_get (d : dict) (k : string) : result (list cell) :=
  match d with
  | [] => Raise KeyError
  | (k', v') :: rest => if String.eqb k' k then Ok v' else dict_get rest k
  end.

(** [d[k].append(x)]. *)
Definition dict_append (d : dict) (k : string) (x : cell) : result dict :=
  l ← dict_get d k; Ok (dict_set d k (l ++ [x])).

(** [df[col]], for a frame with distinct column names: the series of the
    column. *)
Fixpoint df_get (df : dataframe) (col : string) : result series :=
  match df with
  | [] => Raise KeyError
  | (c, s) :: rest => if String.eqb c col then Ok s else df_get rest col
  end.

Definition mem (x : string) (l : list string) : bool :=
  existsb (String.eqb x) l.

(** [_percentile_count(series, percentile_value)]. *)
Definition _percentile_count (s : series) (percentile_value : option value)
  : result value :=
  match percentile_value with
  | None => Raise ValueError
  | Some v => Ok (count_below s v)
  end.

(** [_disjoint(a, b)]: [set(a).isdisjoint(set(b))]. *)
Definition _disjoint (a b : list string) : bool :=
  negb (existsb (fun x => mem x b) a).

(** [l.remove(x)]: the first occurrence goes; [ValueError] without one. *)
Fixpoint list_remove (x : string) (l : list string) : result (list string) :=
  match l with
  | [] => Raise ValueError
  | y :: rest =>
      if String.eqb y x then Ok rest else cons y <$> list_remove x rest
  end.

(** A loop whose body can raise. *)
Fixpoint for_m {A S : Type} (body : S -> A -> result S) (l : list A) (s : S)
  : result S :=
  match l with
  | [] => Ok s
  | x :: rest => s' ← body s x; for_m body rest s'
  end.

(** A list comprehension whose element expression can raise. *)
Fixpoint map_m {A B : Type} (f : A -> result B) (l : list A)
  : result (list B) :=
  match l with
  | [] => Ok []
  | x :: rest => y ← f x; ys ← map_m f rest; Ok (y :: ys)
  end.

Definition statistics : list string :=
  ["Minimum"; "Maximum"; "Mean"; "Median"; "75th Percentile";
   "75th Percentile - Unique Count"; "90th Percentile";
   "90th Percentile - Unique Count"; "95th Percentile";
   "95th Percentile - Unique Count"].

(** One percentile and the count under it, for column [i]: the value is
    appended, read back as [summary[name][i]] and passed on. *)
Definition percentile_pair (s : series) (i : nat) (q : N) (name : string)
    (summary : dict) : result dict :=
  summary ← dict_append summary name (Val (quantile q s));
  l ← dict_get summary name;
  x ← match l !! i with Some x => Ok x | None => Raise IndexError end;
  let percentile_value :=
    match x with Val v => Some v | Name _ => None end in
  n ← _percentile_count s percentile_value;
  dict_append summary (name +:+ " - Unique Count") (Val n).

(** The body of the loop over [enumerate(columns)]. *)
Definition verbose_step (df : dataframe) (verbose_cols : list string)
    (summary : dict) (icol : nat * string) : result dict :=
  let '(i, col) := icol in
  if mem col verbose_cols then
    s ← df_get df col;
    summary ← dict_append summary "Minimum" (Val (smin s));
    summary ← dict_append summary "Maximum" (Val (smax s));
    summary ← dict_append summary "Mean" (Val (smean s));
    summary ← dict_append summary "Median" (Val (quantile 50 s));
    summary ← percentile_pair s i 75 "75th Percentile" summary;
    summary ← percentile_pair s i 90 "90th Percentile" summary;
    percentile_pair s i 95 "95th Percentile" summary
  else
    for_m (fun summary item => dict_append summary item (Val nan))
      statistics summary.

(** [dataframe_info(df, to_skip_cols, unique_count_cols, verbose_cols)].
    An argument left unset is [None].  The local variable [columns] is
    unbound until the branch on [to_skip_cols] assigns it: it is [None] here
    while unbound, and reading it unbound raises. *)
Definition dataframe_info (df : dataframe)
    (to_skip_cols unique_count_cols verbose_cols : option (list string))
  : result dict :=
  columns ←
    match to_skip_cols with
    | Some skip =>
        _ ← match verbose_cols with
            | Some v => if negb (_disjoint skip v) then Raise ValueError
                        else Ok tt
            | None => Ok tt
            end;
        _ ← match unique_count_cols with
            | Some u => if negb (_disjoint skip u) then Raise ValueError
                        else Ok tt
            | None => Ok tt
            end;
        let columns := map fst df in
        columns ← for_m (fun columns col => list_remove col columns)
                    skip columns;
        Ok (Some columns)
    | None => Ok None
    end;
  columns ← match columns with
            | Some c => Ok c
            | None => Raise UnboundLocalError
            end;
  let summary : dict := [("Columns", map Name columns)] in
  data_type ← map_m (fun col => s ← df_get df col; Ok (Val (dtype_str s)))
                columns;
  let summary := dict_set summary "Data Type" data_type in
  non_null ← map_m (fun col => s ← df_get df col;
                               Ok (Val (non_null_count s))) columns;
  let summary := dict_set summary "Non-Null Count" non_null in
  summary ←
    match unique_count_cols with
    | Some u =>
        unique ← map_m (fun col =>
                          if mem col u
                          then s ← df_get df col; Ok (Val (unique_count s))
                          else Ok (Val nan)) columns;
        Ok (dict_set summary "Unique Count" unique)
    | None => Ok summary
    end;
  match verbose_cols with
  | Some v =>
      let summary :=
        fold_left (fun summary item => dict_set summary item []) statistics
          summary in
      for_m (verbose_step df v) (imap (fun i col => (i, col)) columns) summary
  | None => Ok summary
  end.

End DataframeInfo.

(** A small instance to run the model on: a series is a list of optional
    integers, a value is an integer or a text, and the percentile is the
    nearest-rank one.  It stands for pandas in the examples only: its
    values are not the ones pandas computes. *)
Inductive tvalue : Set :=
  | VInt (z : Z)
  | VStr (s : string)
  | VNaN.

Definition present (s : list (option Z)) : list Z := omap id s.

Definition tfold (f : Z -> Z -> Z) (s : list (option Z)) : tvalue :=
  match present s with
  | [] => VNaN
  | x :: r => VInt (fold_left f r x)
  end.

Definition tquantile (q : N) (s : list (option Z)) : tvalue :=
  let l := merge_sort Z.le (present s) in
  match l !! (Z.to_nat (Z.of_N q * Z.of_nat (length l - 1) / 100)) with
  | Some x => VInt x
  | None => VNaN
  end.

Definition tcount_below (s : list (option Z)) (v : tvalue) : tvalue :=
  match v with
  | VInt b =>
      VInt (Z.of_nat (length (remove_dups (filter (fun x => x < b) (present s)))))
  | _ => VInt 0
  end.

Definition list_pandas : Pandas := {|
  series := list (option Z);
  value := tvalue;
  dtype_str := fun _ => VStr "int64";
  non_null_count := fun s => VInt (Z.of_nat (length (present s)));
  unique_count := fun s => VInt (Z.of_nat (length (remove_dups s)));
  nan := VNaN;
  smin := tfold Z.min;
  smax := tfold Z.max;
  smean := fun s =>
    match present s with
    | [] => VNaN
    | l => VInt (fold_left Z.add l 0 / Z.of_nat (length l))
    end;
  quantile := tquantile;
  count_below := tcount_below
|}.

End summary.

(** ** [summary.py]: the summary, column by column

    What [dataframe_info] returns, written as one expression per entry of
    the dictionary, to compare the loops of the code with. *)

Module summary_spec.
Import summary.

Section Expected.
Context `{Pandas}.

(** [dataframe_info] from the first use of [columns] on, for a bound
    [columns]. *)
Definition summary_of_columns (df : dataframe) (columns : list string)
    (unique_count_cols verbose_cols : option (list string)) : result dict :=
  let summary : dict := [("Columns", map Name columns)] in
  data_type ← map_m (fun col => s ← df_get df col; Ok (Val (dtype_str s)))
                columns;
  let summary := dict_set summary "Data Type" data_type in
  non_null ← map_m (fun col => s ← df_get df col;
                               Ok (Val (non_null_count s))) columns;
  let summary := dict_set summary "Non-Null Count" non_null in
  summary ←
    match unique_count_cols with
    | Some u =>
        unique ← map_m (fun col =>
                          if mem col u
                          then s ← df_get df col; Ok (Val (unique_count s))
                          else Ok (Val nan)) columns;
        Ok (dict_set summary "Unique Count" unique)
    | None => Ok summary
    end;
  match verbose_cols with
  | Some v =>
      let summary :=
        fold_left (fun summary item => dict_set summary item []) statistics
          summary in
      for_m (verbose_step df v) (imap (fun i col => (i, col)) columns) summary
  | None => Ok summary
  end.

(** The checks on [to_skip_cols] and the removal of its columns: the value
    of [columns] after the first branch of [dataframe_info]. *)
Definition remaining_columns (df : dataframe) (skip : list string)
    (unique_count_cols verbose_cols : option (list string))
  : result (list string) :=
  _ ← match verbose_cols with
      | Some v => if negb (_disjoint skip v) then Raise ValueError else Ok tt
      | None => Ok tt
      end;
  _ ← match unique_count_cols with
      | Some u => if negb (_disjoint skip u) then Raise ValueError else Ok tt
      | None => Ok tt
      end;
  for_m (fun columns col => list_remove col columns) skip (map fst df).

(** The cell that a statistic [f] of pandas gives for a column. *)
Definition cell_of (df : dataframe) (f : series -> value) (col : string)
  : cell :=
  match df_get df col with
  | Ok s => Val (f s)
  | Raise _ => Val nan
  end.

(** The ten detailed statistics of a series, in the order of [statistics]:
    every count is taken under the percentile of the same series. *)
Definition stat_row (s : series) : list value :=
  [smin s; smax s; smean s; quantile 50 s;
   quantile 75 s; count_below s (quantile 75 s);
   quantile 90 s; count_below s (quantile 90 s);
   quantile 95 s; count_below s (quantile 95 s)].

(** The cell of statistic number [j] for a column: that statistic of the
    column when the column is verbose, NaN otherwise. *)
Definition stat_cell (df : dataframe) (verbose : list string) (j : nat)
    (col : string) : cell :=
  if mem col verbose
  then cell_of df (fun s => default nan (stat_row s !! j)) col
  else Val nan.

(** The summary for the columns left. *)
Definition expected_summary (df : dataframe) (columns : list string)
    (unique_count_cols verbose_cols : option (list string)) : dict :=
  [("Columns", map Name columns);
   ("Data Type", map (cell_of df dtype_str) columns);
   ("Non-Null Count", map (cell_of df non_null_count) columns)]
  ++ match unique_count_cols with
     | Some u =>
         [("Unique Count",
           map (fun col => if mem col u then cell_of df unique_count col
                           else Val nan) columns)]
     | None => []
     end
  ++ match verbose_cols with
     | Some v =>
         imap (fun j name => (name, map (stat_cell df v j) columns))
           statistics
     | None => []
     end.

End Expected.

End summary_spec.

(** ** The notions of the specification, in its own words *)

Module Spec.

(** Every character of the string satisfies [p]. *)
Fixpoint str_forall (p : ascii -> bool) (s : string) : bool :=
  match s with
  | EmptyString => true
  | String c r => p c && str_forall p r
  end.

(** Any character but [c]. *)
Definition not_char (c : ascii) : ascii -> bool :=
  fun a => negb (Ascii.eqb a c).

(** A character of a file name stem: neither a slash nor a dot. *)
Definition stem_char (c : ascii) : bool := not_char "/" c && not_char "." c.

(** [n] underscores. *)
Fixpoint underscores (n : nat) : string :=
  match n with
  | O => EmptyString
  | S m => String "_" (underscores m)
  end.

(** "Replace every run of whitespace or hyphen characters with a single
    underscore": the first separator of a run gives the underscore, the
    others of the run give nothing. *)
Fixpoint collapse_runs (in_run : bool) (s : string) : string :=
  match s with
  | EmptyString => EmptyString
  | String c r =>
      if sep_class c
      then if in_run then collapse_runs true r
           else String "_" (collapse_runs true r)
      else String c (collapse_runs false r)
  end.

Definition normalise_runs (s : string) : string := collapse_runs false s.

(** "Drop the extension", only the trailing one: the segment up to its last
    dot, or the whole segment when it has no dot. *)
Definition drop_extension (segment : string) : string :=
  let i := Py.rfind "." segment in
  if i <? 0 then segment else String.substring 0 (Z.to_nat i) segment.

(** "Extract the final path segment, drop the extension, lowercase it", then
    the separator substitution. *)
Definition filename_spec (file_path : string) : string :=
  sub_sep (Py.lower (drop_extension (Py.basename file_path))).

(** The final segment of a path: a path without a slash is its own final
    segment; otherwise it is the final segment of the path without its
    first character. *)
Fixpoint final_segment (p : string) : string :=
  match p with
  | EmptyString => EmptyString
  | String c r =>
      if str_forall (not_char "/") p then p else final_segment r
  end.

(** A segment cut at its first dot: the characters before the first dot,
    the whole segment when it has no dot. *)
Fixpoint before_first_dot (segment : string) : string :=
  match segment with
  | EmptyString => EmptyString
  | String c r =>
      if Ascii.eqb c "." then EmptyString else String c (before_first_dot r)
  end.

(** The schema or table name the assembler works with. *)
Definition resolve_name (file name : string) : string :=
  match name with
  | EmptyString => filename file
  | _ => Py.lower (sub_sep name)
  end.

(** One line of the column definitions: a tab, the quoted name, [TEXT]. *)
Definition column_line (name : string) : string :=
  TAB +:+ DQ +:+ name +:+ DQ +:+ " TEXT".

(** The lines "separated by a comma and newline". *)
Definition column_definitions (header : list string) : string :=
  Py.join (", " +:+ LF) (map column_line header).

(** "Escape embedded single-quote characters by doubling them". *)
Fixpoint escape_quotes (s : string) : string :=
  match s with
  | EmptyString => EmptyString
  | String c r =>
      if Ascii.eqb c "'" then String "'" (String "'" (escape_quotes r))
      else String c (escape_quotes r)
  end.

(** Reading a doubled single quote back as one: what a SQL parser does with
    the body of a literal. *)
Fixpoint unescape_quotes (s : string) : string :=
  match s with
  | EmptyString => EmptyString
  | String c r =>
      match r with
      | String c2 r2 =>
          if Ascii.eqb c "'" && Ascii.eqb c2 "'"
          then String "'" (unescape_quotes r2)
          else String c (unescape_quotes r)
      | EmptyString => String c EmptyString
      end
  end.

(** "Wrap each field in single quotes". *)
Definition format_field (f : string) : string :=
  SQ +:+ escape_quotes f +:+ SQ.

(** "Join fields with comma-space, and wrap the row in parentheses preceded
    by a newline and tab". *)
Definition format_row (row : list string) : string :=
  LF +:+ TAB +:+ "(" +:+ Py.join ", " (map format_field row) +:+ ")".

(** "All formatted rows joined by comma-space in file order". *)
Definition formatted_rows (rows : list (list string)) : string :=
  Py.join ", " (map format_row rows).

Definition schema_fragment (s : string) : string := "CREATE SCHEMA " +:+ s.

Definition table_fragment (s t : string) (header : list string) : string :=
  "DROP TABLE IF EXISTS " +:+ s +:+ "." +:+ t +:+ ";" +:+ LF
  +:+ "CREATE TABLE " +:+ s +:+ "." +:+ t +:+ " (" +:+ LF
  +:+ _column_def header +:+ LF +:+ ")".

Definition quoted_columns (header : list string) : string :=
  Py.join ", " (map (fun c => DQ +:+ c +:+ DQ) header).

Definition insert_fragment (s t : string) (header : list string)
    (rows : list (list string)) : string :=
  "INSERT INTO " +:+ s +:+ "." +:+ t +:+ LF +:+ TAB +:+ "("
  +:+ quoted_columns header +:+ ")" +:+ LF +:+ "VALUES"
  +:+ formatted_rows rows.

(** The three fragments in order; a terminator and a blank line after the
    first and after the second, a terminator after the third. *)
Definition script (s t : string) (header : list string)
    (rows : list (list string)) : string :=
  schema_fragment s +:+ ";" +:+ LF +:+ LF
  +:+ table_fragment s t header +:+ ";" +:+ LF +:+ LF
  +:+ insert_fragment s t header rows +:+ ";".

(** "Each followed by a statement terminator and blank line": the same with
    the blank line after the third fragment too. *)
Definition script_blank_after_each (s t : string) (header : list string)
    (rows : list (list string)) : string :=
  schema_fragment s +:+ ";" +:+ LF +:+ LF
  +:+ table_fragment s t header +:+ ";" +:+ LF +:+ LF
  +:+ insert_fragment s t header rows +:+ ";" +:+ LF +:+ LF.

(** The number of occurrences of a character. *)
Fixpoint count_char (c : ascii) (s : string) : nat :=
  match s with
  | EmptyString => O
  | String a r => (if Ascii.eqb a c then 1 else 0) + count_char c r
  end.

(** [s] ends with [suffix]. *)
Definition ends_with (suffix s : string) : Prop :=
  exists front, s = front +:+ suffix.

End Spec.

(** ** Sample files *)

Module Sample.

(** [a.csv]: the header [col1,col2] and the row [1,2]. *)
Definition fs_a : filesystem :=
  {[ "a.csv" := Codec.utf8_encode ("col1,col2" +:+ LF +:+ "1,2" +:+ LF) ]}.

(** [people.csv]: the header [id,name] and the row [1,O'Brien]. *)
Definition fs_people : filesystem :=
  {[ "people.csv" := Codec.utf8_encode ("id,name" +:+ LF +:+ "1,O'Brien" +:+ LF) ]}.

(** [head.csv]: a header and no data row. *)
Definition fs_header_only : filesystem :=
  {[ "head.csv" := Codec.utf8_encode ("id,name" +:+ LF) ]}.

(** [empty.csv]: no byte at all. *)
Definition fs_empty : filesystem := {[ "empty.csv" := [] ]}.

(** [cafe.csv] written in Latin-1: the header is the one column [café]
    (the bytes 63 61 66 E9), and there is one row [1]. *)
Definition cafe : string := "caf" +:+ String "233" EmptyString.

Definition fs_latin1 : filesystem :=
  {[ "cafe.csv" := Codec.latin1_encode (cafe +:+ LF +:+ "1" +:+ LF) ]}.

(** [a.sql]: a delimited file whose own name is the name of its output. *)
Definition fs_sql : filesystem :=
  {[ "a.sql" := Codec.utf8_encode ("col1" +:+ LF +:+ "1" +:+ LF) ]}.

(** A frame of two columns over the small pandas instance. *)
Definition frame : @summary.dataframe summary.list_pandas :=
  [("x", [Some 1; None; Some 3]); ("y", [Some 5; Some 5; Some 7])].

End Sample.

(** * Properties *)

(** ** Strings *)

Lemma append_cons (x : ascii) (a b : string) :
  String x a +:+ b = String x (a +:+ b).
Proof. reflexivity. Qed.

Lemma append_nil_l (b : string) : EmptyString +:+ b = b.
Proof. reflexivity. Qed.

Lemma append_assoc (a b c : string) : (a +:+ b) +:+ c = a +:+ (b +:+ c).
Proof.
  induction a as [|x a IH]; [reflexivity |].
  rewrite !append_cons, IH. reflexivity.
Qed.

Lemma append_nil_r (a : string) : a +:+ EmptyString = a.
Proof.
  induction a as [|x a IH]; [reflexivity |].
  rewrite append_cons, IH. reflexivity.
Qed.

Lemma append_nil_inv (a b : string) :
  a +:+ b = EmptyString -> a = EmptyString /\ b = EmptyString.
Proof. destruct a; [auto | rewrite append_cons; discriminate]. Qed.

Lemma fold_left_snoc {A B} (f : A -> B) (l : list A) (acc : list B) :
  fold_left (fun acc x => acc ++ [f x]) l acc = acc ++ map f l.
Proof.
  revert acc; induction l as [|x l IH]; intros acc; simpl.
  - now rewrite app_nil_r.
  - rewrite IH, <- app_assoc. reflexivity.
Qed.

Lemma lower_app (a b : string) :
  Py.lower (a +:+ b) = Py.lower a +:+ Py.lower b.
Proof.
  induction a as [|x a IH]; [reflexivity |].
  rewrite append_cons. simpl. rewrite IH. reflexivity.
Qed.

Lemma lower_underscores (n : nat) :
  Py.lower (Spec.underscores n) = Spec.underscores n.
Proof. induction n as [|n IH]; simpl; [reflexivity | now rewrite IH]. Qed.

Lemma re_sub_class_app cls repl (a b : string) :
  Py.re_sub_class cls repl (a +:+ b)
  = Py.re_sub_class cls repl a +:+ Py.re_sub_class cls repl b.
Proof.
  induction a as [|x a IH]; [reflexivity |].
  rewrite append_cons. simpl.
  destruct (cls x); rewrite IH; [now rewrite append_assoc | reflexivity].
Qed.

Lemma sub_sep_run (run : string) :
  Spec.str_forall sep_class run = true ->
  sub_sep run = Spec.underscores (String.length run).
Proof.
  unfold sub_sep. induction run as [|c run IH]; simpl; [reflexivity |].
  intros [Hc Hr]%andb_prop. rewrite Hc, (IH Hr). reflexivity.
Qed.

(** ** The identifier normaliser *)

(** No whitespace and no hyphen is left. *)
Lemma sub_sep_no_separator (s : string) :
  Spec.str_forall (fun c => negb (sep_class c)) (sub_sep s) = true.
Proof.
  unfold sub_sep. induction s as [|c r IH]; [reflexivity |]. simpl.
  destruct (sep_class c) eqn:Hc.
  - rewrite append_cons, append_nil_l. simpl. exact IH.
  - simpl. now rewrite Hc, IH.
Qed.

(** C2, as stated, fails: two adjacent separators give two underscores, for
    a name derived from the file and for an explicit override alike, where
    the collapse of runs gives one. *)
Lemma sub_sep_keeps_runs :
  filename "in/my - data.csv" = "my___data"
  /\ Spec.resolve_name "in/x.csv" "a--b" = "a__b"
  /\ sub_sep "a--b" <> Spec.normalise_runs "a--b"
  /\ Spec.normalise_runs "a--b" = "a_b".
Proof.
  repeat split; try reflexivity.
  apply String.eqb_neq. reflexivity.
Qed.

(** C2, amended: the substitution works character by character, so a run of
    [n] adjacent whitespace or hyphen characters becomes [n] underscores,
    both in a derived file name (substitution alone) and in an explicit
    override (substitution, then lower case). *)
Theorem sub_sep_one_underscore_per_separator (a run b : string) :
  Spec.str_forall sep_class run = true ->
  sub_sep (a +:+ run +:+ b)
  = sub_sep a +:+ Spec.underscores (String.length run) +:+ sub_sep b
  /\ Py.lower (sub_sep (a +:+ run +:+ b))
     = Py.lower (sub_sep a) +:+ Spec.underscores (String.length run)
       +:+ Py.lower (sub_sep b).
Proof.
  intros Hrun.
  assert (E : sub_sep (a +:+ run +:+ b)
              = sub_sep a +:+ Spec.underscores (String.length run)
                +:+ sub_sep b).
  { unfold sub_sep. rewrite !re_sub_class_app.
    fold (sub_sep run). now rewrite (sub_sep_run run Hrun). }
  split; [exact E |].
  rewrite E, !lower_app, lower_underscores. reflexivity.
Qed.

Lemma sub_sep_one_underscore_per_separator_witness :
  Spec.str_forall sep_class (" -" +:+ TAB) = true
  /\ sub_sep ("my" +:+ (" -" +:+ TAB) +:+ "data") = "my___data".
Proof.
  split; [reflexivity |].
  rewrite (proj1 (sub_sep_one_underscore_per_separator "my" (" -" +:+ TAB) "data" eq_refl)).
  reflexivity.
Defined.

(** ** The file name of a path *)

Lemma rfind_absent (c : ascii) (s : string) :
  Spec.str_forall (Spec.not_char c) s = true -> Py.rfind c s = -1.
Proof.
  induction s as [|a s IH]; simpl; [reflexivity |].
  intros [Ha Hs]%andb_prop. rewrite (IH Hs). simpl.
  unfold Spec.not_char in Ha. apply negb_true_iff in Ha. now rewrite Ha.
Qed.

Lemma rfind_last (c : ascii) (front back : string) :
  Spec.str_forall (Spec.not_char c) back = true ->
  Py.rfind c (front +:+ String c back) = Z.of_nat (String.length front).
Proof.
  intros Hback. induction front as [|a front IH].
  - rewrite append_nil_l. simpl. rewrite (rfind_absent c back Hback). simpl.
    now rewrite Ascii.eqb_refl.
  - rewrite append_cons. simpl Py.rfind. rewrite IH.
    destruct (Z.leb_spec 0 (Z.of_nat (String.length front))); [|lia].
    simpl String.length. lia.
Qed.

Lemma slice_from_app (front back : string) :
  Py.slice_from (String.length front) (front +:+ back) = back.
Proof.
  induction front as [|a front IH]; [now destruct back |].
  rewrite append_cons. simpl. exact IH.
Qed.

(** The base name of [dir/segment] is [segment]. *)
Lemma basename_dir (dir segment : string) :
  Spec.str_forall (Spec.not_char "/") segment = true ->
  Py.basename (dir +:+ "/" +:+ segment) = segment.
Proof.
  intros Hseg. unfold Py.basename.
  change ("/" +:+ segment) with (String "/" segment).
  rewrite (rfind_last "/" dir segment Hseg).
  replace (Z.to_nat (Z.of_nat (String.length dir) + 1))
    with (String.length (dir +:+ "/")).
  - rewrite <- (slice_from_app (dir +:+ "/") segment) at 2.
    now rewrite append_assoc.
  - induction dir as [|a dir IH]; [reflexivity |].
    rewrite append_cons. simpl String.length. lia.
Qed.

(** The base name of a path without a slash is the path. *)
Lemma basename_plain (segment : string) :
  Spec.str_forall (Spec.not_char "/") segment = true ->
  Py.basename segment = segment.
Proof.
  intros Hseg. unfold Py.basename.
  rewrite (rfind_absent "/" segment Hseg). reflexivity.
Qed.

(** [split] cuts at the first separator. *)
Lemma split_first (sep : ascii) (stem rest : string) :
  Spec.str_forall (Spec.not_char sep) stem = true ->
  Py.split sep (stem +:+ String sep rest) = stem :: Py.split sep rest.
Proof.
  induction stem as [|a stem IH].
  - intros _. rewrite append_nil_l. simpl. now rewrite Ascii.eqb_refl.
  - intros [Ha Hs]%andb_prop. rewrite append_cons. simpl Py.split.
    unfold Spec.not_char in Ha. apply negb_true_iff in Ha. rewrite Ha.
    now rewrite (IH Hs).
Qed.

Lemma str_forall_weaken (p q : ascii -> bool) (s : string) :
  (forall c, p c = true -> q c = true) ->
  Spec.str_forall p s = true -> Spec.str_forall q s = true.
Proof.
  intros Hpq. induction s as [|a s IH]; simpl; [reflexivity |].
  intros [Ha Hs]%andb_prop. now rewrite (Hpq a Ha), (IH Hs).
Qed.

Lemma str_forall_app (p : ascii -> bool) (a b : string) :
  Spec.str_forall p (a +:+ b) = Spec.str_forall p a && Spec.str_forall p b.
Proof.
  induction a as [|x a IH]; [reflexivity |].
  rewrite append_cons. simpl. now rewrite IH, andb_assoc.
Qed.

(** C3, as stated, fails: of [my.data.csv] the code keeps [my], where
    dropping the trailing extension alone keeps [my.data]. *)
Lemma filename_cuts_at_first_dot :
  filename "in/my.data.csv" = "my"
  /\ Spec.filename_spec "in/my.data.csv" = "my.data"
  /\ filename "in/my.data.csv" <> Spec.filename_spec "in/my.data.csv".
Proof.
  repeat split; try reflexivity.
  apply String.eqb_neq. reflexivity.
Qed.

(** A final segment with a dot: of [dir/stem.rest] and of [stem.rest] the
    name is made from [stem], whatever dots [rest] holds. *)
Lemma filename_stem_before_first_dot (dir stem rest : string) :
  Spec.str_forall Spec.stem_char stem = true ->
  Spec.str_forall (Spec.not_char "/") rest = true ->
  filename (dir +:+ "/" +:+ stem +:+ "." +:+ rest) = sub_sep (Py.lower stem)
  /\ filename (stem +:+ "." +:+ rest) = sub_sep (Py.lower stem).
Proof.
  intros Hstem Hrest.
  assert (Hslash : Spec.str_forall (Spec.not_char "/") stem = true).
  { revert Hstem. apply str_forall_weaken.
    intros c [H _]%andb_prop. exact H. }
  assert (Hdot : Spec.str_forall (Spec.not_char ".") stem = true).
  { revert Hstem. apply str_forall_weaken.
    intros c [_ H]%andb_prop. exact H. }
  assert (Hseg : Spec.str_forall (Spec.not_char "/") (stem +:+ "." +:+ rest) = true).
  { rewrite !str_forall_app, Hslash, Hrest. reflexivity. }
  assert (Hcut : hd EmptyString (Py.split "." (stem +:+ "." +:+ rest)) = stem).
  { change ("." +:+ rest) with (String "." rest).
    now rewrite (split_first "." stem rest Hdot). }
  unfold filename. split.
  - rewrite (basename_dir dir _ Hseg), Hcut. reflexivity.
  - rewrite (basename_plain _ Hseg), Hcut. reflexivity.
Qed.

Lemma filename_stem_before_first_dot_witness :
  Spec.str_forall Spec.stem_char "My-Data" = true
  /\ Spec.str_forall (Spec.not_char "/") "v2.csv" = true
  /\ filename ("/srv/in" +:+ "/" +:+ "My-Data" +:+ "." +:+ "v2.csv") = "my_data".
Proof.
  split; [reflexivity |]. split; [reflexivity |].
  rewrite (proj1 (filename_stem_before_first_dot "/srv/in" "My-Data" "v2.csv"
                    eq_refl eq_refl)).
  reflexivity.
Defined.

Lemma final_segment_plain (p : string) :
  Spec.str_forall (Spec.not_char "/") p = true -> Spec.final_segment p = p.
Proof. destruct p as [|c r]; [reflexivity |]. simpl. now intros ->. Qed.

Lemma rfind_found_present (c : ascii) (s : string) :
  0 <= Py.rfind c s -> Spec.str_forall (Spec.not_char c) s = false.
Proof.
  intros Hge. destruct (Spec.str_forall (Spec.not_char c) s) eqn:Hs;
    [| reflexivity].
  rewrite (rfind_absent c s Hs) in Hge. lia.
Qed.

Lemma rfind_absent_iff (c : ascii) (s : string) :
  Py.rfind c s < 0 -> Spec.str_forall (Spec.not_char c) s = true.
Proof.
  induction s as [|a r IH]; [reflexivity |]. simpl.
  destruct (Z.leb_spec 0 (Py.rfind c r)) as [Hge | Hlt]; [lia |].
  unfold Spec.not_char at 1.
  destruct (Ascii.eqb a c); [lia |]. intros _. simpl. now apply IH.
Qed.

(** [posixpath.basename] gives the final segment. *)
Lemma basename_final_segment (p : string) :
  Py.basename p = Spec.final_segment p.
Proof.
  induction p as [|c r IH]; [reflexivity |].
  unfold Py.basename in *. simpl Py.rfind.
  destruct (Z.leb_spec 0 (Py.rfind "/" r)) as [Hge | Hlt].
  - replace (Z.to_nat (Py.rfind "/" r + 1 + 1))
      with (S (Z.to_nat (Py.rfind "/" r + 1))) by lia.
    simpl Py.slice_from. rewrite IH. simpl Spec.final_segment.
    now rewrite (rfind_found_present "/" r Hge), andb_false_r.
  - pose proof (rfind_absent_iff "/" r Hlt) as Habs.
    simpl Spec.final_segment. rewrite Habs. unfold Spec.not_char.
    destruct (Ascii.eqb c "/"); simpl.
    + now rewrite (final_segment_plain r Habs).
    + reflexivity.
Qed.

(** The first piece of [split('.')] is the segment cut at its first dot. *)
Lemma split_hd_before_first_dot (s : string) :
  hd EmptyString (Py.split "." s) = Spec.before_first_dot s.
Proof.
  induction s as [|c r IH]; [reflexivity |]. simpl.
  destruct (Ascii.eqb c "."); [reflexivity |].
  destruct (Py.split "." r) as [|h t]; simpl in *; now rewrite <- IH.
Qed.

(** C3, amended: for every file path the output is the final path segment
    cut at its first dot (everything from the first dot on is dropped, a
    segment without a dot is kept whole), lowercased, with the separator
    substitution applied; so of a final segment with more than one dot only
    the part before the first dot is kept. *)
Theorem filename_final_segment_before_first_dot (file_path : string) :
  filename file_path
  = sub_sep (Py.lower (Spec.before_first_dot (Spec.final_segment file_path))).
Proof.
  unfold filename. cbv zeta.
  now rewrite split_hd_before_first_dot, basename_final_segment.
Qed.

(** ** The column definitions *)

Lemma join_cons2 (sep x y : string) (l : list string) :
  Py.join sep (x :: y :: l) = x +:+ sep +:+ Py.join sep (y :: l).
Proof. reflexivity. Qed.

Lemma join_indent (indent sep : string) (f : string -> string)
    (x : string) (l : list string) :
  indent +:+ Py.join (sep +:+ indent) (map f (x :: l))
  = Py.join sep (map (fun c => indent +:+ f c) (x :: l)).
Proof.
  revert x; induction l as [|y l IH]; intros x; [reflexivity |].
  specialize (IH y). cbn [map] in *.
  rewrite !join_cons2, <- IH, !append_assoc. reflexivity.
Qed.

Lemma column_def_temp (header : list string) :
  _column_def header
  = TAB +:+ Py.join (", " +:+ LF +:+ TAB)
              (map (fun item => DQ +:+ item +:+ DQ +:+ " TEXT") header).
Proof. unfold _column_def. now rewrite fold_left_snoc. Qed.

(** C6: for a non-empty header the column definition builder returns one
    line per column, each a tab and the quoted name followed by TEXT, the
    lines separated by a comma (and a space) and a newline. *)
Theorem column_def_one_line_per_column (header : list string) :
  header <> [] ->
  _column_def header = Spec.column_definitions header.
Proof.
  intros Hne. destruct header as [|x l]; [congruence |].
  rewrite column_def_temp. unfold Spec.column_definitions, Spec.column_line.
  rewrite <- (join_indent TAB (", " +:+ LF)
                (fun name => DQ +:+ name +:+ DQ +:+ " TEXT") x l).
  now rewrite append_assoc.
Qed.

(** The header [a, b] gives exactly the two lines of the specification. *)
Lemma column_def_one_line_per_column_witness :
  ["a"; "b"] <> []
  /\ _column_def ["a"; "b"]
     = TAB +:+ DQ +:+ "a" +:+ DQ +:+ " TEXT, " +:+ LF
       +:+ TAB +:+ DQ +:+ "b" +:+ DQ +:+ " TEXT".
Proof.
  split; [discriminate |].
  rewrite (column_def_one_line_per_column ["a"; "b"]); [reflexivity |].
  discriminate.
Defined.

(** ** The value rows *)

Lemma replace_escape (item : string) :
  Py.replace "'" (SQ +:+ SQ) item = Spec.escape_quotes item.
Proof.
  induction item as [|c r IH]; simpl; [reflexivity |].
  rewrite IH. destruct (Ascii.eqb c "'"); reflexivity.
Qed.

Lemma unescape_other (c : ascii) (x : string) :
  c <> "'"%char ->
  Spec.unescape_quotes (String c x) = String c (Spec.unescape_quotes x).
Proof.
  intros Hc%Ascii.eqb_neq. destruct x as [|c2 x]; [reflexivity |].
  cbn [Spec.unescape_quotes]. rewrite Hc. reflexivity.
Qed.

(** The body of the literal reads back as the field. *)
Lemma unescape_escape (item : string) :
  Spec.unescape_quotes (Spec.escape_quotes item) = item.
Proof.
  induction item as [|c r IH]; [reflexivity |].
  cbn [Spec.escape_quotes].
  destruct (Ascii.eqb_spec c "'") as [-> | Hc].
  - cbn [Spec.unescape_quotes]. rewrite Ascii.eqb_refl. simpl.
    now rewrite IH.
  - now rewrite (unescape_other c _ Hc), IH.
Qed.

Lemma quote_item_format (item : string) :
  quote_item item = Spec.format_field item.
Proof. unfold quote_item, Spec.format_field. now rewrite replace_escape. Qed.

Lemma get_header_first fs file enc text header rows e :
  open_read fs file enc = Ok text ->
  csv.reader text = Iterator (header :: rows) e ->
  _get_header fs file enc = Ok header.
Proof.
  intros Hread Hrows. unfold _get_header. rewrite Hread. simpl.
  rewrite Hrows. reflexivity.
Qed.

Lemma values_str_rows fs file enc text header rows :
  open_read fs file enc = Ok text ->
  csv.reader text = Iterator (header :: rows) None ->
  _values_str fs file enc
  = Ok (Py.join ", "
          (map (fun row =>
                  LF +:+ TAB +:+ "(" +:+ Py.join ", " (map quote_item row)
                  +:+ ")") rows)).
Proof.
  intros Hread Hrows. unfold _values_str. rewrite Hread. simpl.
  rewrite Hrows. unfold next, for_each. simpl.
  rewrite (fold_left_snoc
             (fun row => LF +:+ TAB +:+ "(" +:+ Py.join ", " (map quote_item row)
                         +:+ ")") rows []).
  reflexivity.
Qed.

Lemma values_str_spec fs file enc text header rows :
  open_read fs file enc = Ok text ->
  csv.reader text = Iterator (header :: rows) None ->
  _values_str fs file enc = Ok (Spec.formatted_rows rows).
Proof.
  intros Hread Hrows. rewrite (values_str_rows _ _ _ _ _ _ Hread Hrows).
  unfold Spec.formatted_rows, Spec.format_row. do 2 f_equal.
  apply map_ext; intros row.
  now rewrite (map_ext quote_item Spec.format_field quote_item_format row).
Qed.

(** C5: the value row formatter gives, for the data rows of the file in
    their order, each field with its single quotes doubled and put between
    single quotes, the fields of a row joined with comma-space (inside the
    parentheses of the row). *)
Theorem values_str_formats_every_row fs file enc text header rows :
  open_read fs file enc = Ok text ->
  csv.reader text = Iterator (header :: rows) None ->
  _values_str fs file enc = Ok (Spec.formatted_rows rows).
Proof. exact (values_str_spec fs file enc text header rows). Qed.

(** Header [id, name] and the row [1, O'Brien]: the formatted row holds
    exactly ['1', 'O''Brien']. *)
Lemma values_str_formats_every_row_witness :
  open_read Sample.fs_people "people.csv" UTF8
  = Ok ("id,name" +:+ LF +:+ "1,O'Brien" +:+ LF)
  /\ csv.reader ("id,name" +:+ LF +:+ "1,O'Brien" +:+ LF)
     = Iterator [["id"; "name"]; ["1"; "O'Brien"]] None
  /\ _values_str Sample.fs_people "people.csv" UTF8
     = Ok (LF +:+ TAB +:+ "(" +:+ "'1', 'O''Brien'" +:+ ")").
Proof.
  split; [vm_compute; reflexivity |]. split; [vm_compute; reflexivity |].
  rewrite (values_str_formats_every_row Sample.fs_people "people.csv" UTF8
             ("id,name" +:+ LF +:+ "1,O'Brien" +:+ LF)
             ["id"; "name"] [["1"; "O'Brien"]]).
  - reflexivity.
  - vm_compute; reflexivity.
  - vm_compute; reflexivity.
Defined.

(** ** The assembled script *)

Lemma resolve_name_length (file name : string) :
  (if (String.length name =? 0)%nat then filename file
   else Py.lower (sub_sep name))
  = Spec.resolve_name file name.
Proof. destruct name; reflexivity. Qed.

(** With a header read, the conversion is the write of the script. *)
Lemma csv_postgresql_write fs file schema_name table_name enc text header rows :
  open_read fs file default_encoding = Ok text ->
  csv.reader text = Iterator (header :: rows) None ->
  csv_postgresql fs file schema_name table_name enc
  = open_write fs (filename file +:+ ".sql") enc
      (Spec.script (Spec.resolve_name file schema_name)
         (Spec.resolve_name file table_name) header rows).
Proof.
  intros Hread Hrows. unfold csv_postgresql. cbv zeta.
  rewrite (get_header_first _ _ _ _ _ _ _ Hread Hrows).
  rewrite (values_str_spec _ _ _ _ _ _ Hread Hrows).
  rewrite !resolve_name_length. f_equal.
  unfold Spec.script, Spec.schema_fragment, Spec.table_fragment,
    Spec.insert_fragment, Spec.quoted_columns.
  rewrite !append_assoc. reflexivity.
Qed.

(** C4, as stated, fails.  On [a.csv] the text written to [a.sql] ends with
    the terminator of the INSERT, without a blank line after it, and it
    holds four terminated statements, the table fragment being a DROP TABLE
    and a CREATE TABLE.  And a header record read does not make the text
    written: with the schema name [café] and the encoding ASCII the write
    raises, and [a.sql] is left empty. *)
Lemma script_no_blank_line_after_insert :
  let written := Spec.script "a" "a" ["col1"; "col2"] [["1"; "2"]] in
  csv_postgresql Sample.fs_a "a.csv" "" "" UTF8
  = (<["a.sql" := Codec.utf8_encode written]> Sample.fs_a, Ok tt)
  /\ written
     <> Spec.script_blank_after_each "a" "a" ["col1"; "col2"] [["1"; "2"]]
  /\ Spec.count_char ";" written = 4%nat
  /\ csv_postgresql Sample.fs_a "a.csv" Sample.cafe "" ASCII
     = (<["a.sql" := []]> Sample.fs_a, Raise UnicodeEncodeError).
Proof.
  cbv zeta. split; [vm_compute; reflexivity |]. split; [| split].
  - apply String.eqb_neq. vm_compute. reflexivity.
  - vm_compute. reflexivity.
  - vm_compute. reflexivity.
Qed.

(** A call that returns has put the encoded text in the output file. *)
Lemma open_write_returns (fs fs1 : filesystem) path enc text :
  open_write fs path enc text = (fs1, Ok tt) ->
  exists bytes, Codec.encode enc text = Some bytes /\ fs1 !! path = Some bytes.
Proof.
  unfold open_write. destruct (Codec.encode enc text) as [bytes|];
    [| discriminate].
  intros [= <-]. exists bytes. split; [reflexivity | apply lookup_insert_eq].
Qed.

(** C4, amended: for a source file in which the header record and every
    data record are read, the text generated is the three fragments in
    order (CREATE SCHEMA; DROP TABLE IF EXISTS and CREATE TABLE; INSERT),
    the first and the second followed by a terminator and a blank line, the
    third by a terminator alone; the conversion ends with the write of that
    text, in the caller's encoding, to the file named after the normalised
    source file name with [.sql], and whenever it returns that file holds
    the encoded text. *)
Theorem csv_postgresql_writes_script
    (fs : filesystem) file schema_name table_name enc text header rows :
  let out := filename file +:+ ".sql" in
  let script :=
    Spec.script (Spec.resolve_name file schema_name)
      (Spec.resolve_name file table_name) header rows in
  open_read fs file default_encoding = Ok text ->
  csv.reader text = Iterator (header :: rows) None ->
  csv_postgresql fs file schema_name table_name enc
  = open_write fs out enc script
  /\ forall fs1 : filesystem,
       csv_postgresql fs file schema_name table_name enc = (fs1, Ok tt) ->
       exists bytes,
         Codec.encode enc script = Some bytes /\ fs1 !! out = Some bytes.
Proof.
  intros out script Hread Hrows.
  pose proof (csv_postgresql_write _ _ schema_name table_name enc _ _ _
                Hread Hrows) as Hrun.
  fold out script in Hrun. split; [exact Hrun |].
  intros fs1 Hret. rewrite Hrun in Hret. exact (open_write_returns _ _ _ _ _ Hret).
Qed.

(** [a.csv] with the header [col1,col2] and the row [1,2] gives [a.sql],
    every fragment naming the schema and table [a]. *)
Lemma csv_postgresql_writes_script_witness :
  let text := "col1,col2" +:+ LF +:+ "1,2" +:+ LF in
  let sql :=
    "CREATE SCHEMA a;" +:+ LF +:+ LF
    +:+ "DROP TABLE IF EXISTS a.a;" +:+ LF
    +:+ "CREATE TABLE a.a (" +:+ LF
    +:+ TAB +:+ DQ +:+ "col1" +:+ DQ +:+ " TEXT, " +:+ LF
    +:+ TAB +:+ DQ +:+ "col2" +:+ DQ +:+ " TEXT" +:+ LF
    +:+ ");" +:+ LF +:+ LF
    +:+ "INSERT INTO a.a" +:+ LF
    +:+ TAB +:+ "(" +:+ DQ +:+ "col1" +:+ DQ +:+ ", " +:+ DQ +:+ "col2" +:+ DQ
    +:+ ")" +:+ LF
    +:+ "VALUES" +:+ LF +:+ TAB +:+ "('1', '2');" in
  open_read Sample.fs_a "a.csv" default_encoding = Ok text
  /\ csv.reader text = Iterator [["col1"; "col2"]; ["1"; "2"]] None
  /\ csv_postgresql Sample.fs_a "a.csv" "" "" UTF8
     = (<["a.sql" := Codec.utf8_encode sql]> Sample.fs_a, Ok tt)
  /\ exists bytes,
       Codec.encode UTF8 sql = Some bytes
       /\ fst (csv_postgresql Sample.fs_a "a.csv" "" "" UTF8) !! "a.sql"
          = Some bytes.
Proof.
  cbv zeta.
  split; [vm_compute; reflexivity |]. split; [vm_compute; reflexivity |].
  pose proof (csv_postgresql_writes_script Sample.fs_a "a.csv" "" "" UTF8
                ("col1,col2" +:+ LF +:+ "1,2" +:+ LF)
                ["col1"; "col2"] [["1"; "2"]] eq_refl eq_refl) as [Hrun Hret].
  cbv zeta in Hrun, Hret.
  assert (Hok : csv_postgresql Sample.fs_a "a.csv" "" "" UTF8
                = (fst (csv_postgresql Sample.fs_a "a.csv" "" "" UTF8), Ok tt))
    by (rewrite Hrun; vm_compute; reflexivity).
  split; [rewrite Hrun; vm_compute; reflexivity |].
  exact (Hret _ Hok).
Defined.

(** ** A header and no data row *)

(** C7, as stated, fails: [head.csv] holds a header and no data row, and
    with the schema name [café] and the encoding ASCII the conversion raises
    the encoding error of the write and leaves [head.sql] empty. *)
Lemma header_only_ascii_write_raises :
  open_read Sample.fs_header_only "head.csv" ASCII = Ok ("id,name" +:+ LF)
  /\ open_read Sample.fs_header_only "head.csv" default_encoding
     = Ok ("id,name" +:+ LF)
  /\ csv.reader ("id,name" +:+ LF) = Iterator [["id"; "name"]] None
  /\ csv_postgresql Sample.fs_header_only "head.csv" Sample.cafe "" ASCII
     = (<["head.sql" := []]> Sample.fs_header_only, Raise UnicodeEncodeError).
Proof. repeat split; vm_compute; reflexivity. Qed.

(** C7, amended: for a source file in which exactly one record is read (a
    header and no data row), the value formatter returns the empty string,
    the INSERT fragment keeps its shape and ends at VALUES (so the script
    ends with VALUES and the terminator), and the conversion raises nothing
    before the write of the output file: it ends as the write of that
    script ends, and whenever it returns the output file holds the script
    in the caller's encoding. *)
Theorem header_only_reaches_write
    (fs : filesystem) file schema_name table_name enc text header :
  let s := Spec.resolve_name file schema_name in
  let t := Spec.resolve_name file table_name in
  let out := filename file +:+ ".sql" in
  open_read fs file default_encoding = Ok text ->
  csv.reader text = Iterator [header] None ->
  _values_str fs file default_encoding = Ok EmptyString
  /\ Spec.insert_fragment s t header []
     = "INSERT INTO " +:+ s +:+ "." +:+ t +:+ LF +:+ TAB +:+ "("
       +:+ Spec.quoted_columns header +:+ ")" +:+ LF +:+ "VALUES"
  /\ Spec.ends_with "VALUES;" (Spec.script s t header [])
  /\ csv_postgresql fs file schema_name table_name enc
     = open_write fs out enc (Spec.script s t header [])
  /\ (forall fs1 : filesystem,
        csv_postgresql fs file schema_name table_name enc = (fs1, Ok tt) ->
        exists bytes,
          Codec.encode enc (Spec.script s t header []) = Some bytes
          /\ fs1 !! out = Some bytes).
Proof.
  intros s t out Hread Hrows.
  pose proof (csv_postgresql_write _ _ schema_name table_name enc _ _ _
                Hread Hrows) as Hrun.
  fold s t out in Hrun.
  split; [| split; [| split; [| split]]].
  - now rewrite (values_str_spec _ _ _ _ _ _ Hread Hrows).
  - unfold Spec.insert_fragment, Spec.formatted_rows. simpl map.
    change (Py.join ", " []) with EmptyString.
    now rewrite append_nil_r.
  - exists (Spec.schema_fragment s +:+ ";" +:+ LF +:+ LF
            +:+ Spec.table_fragment s t header +:+ ";" +:+ LF +:+ LF
            +:+ "INSERT INTO " +:+ s +:+ "." +:+ t +:+ LF +:+ TAB +:+ "("
            +:+ Spec.quoted_columns header +:+ ")" +:+ LF).
    unfold Spec.script, Spec.insert_fragment, Spec.formatted_rows. simpl map.
    change (Py.join ", " []) with EmptyString.
    rewrite !append_assoc, append_nil_l. reflexivity.
  - exact Hrun.
  - intros fs1 Hret. rewrite Hrun in Hret.
    exact (open_write_returns _ _ _ _ _ Hret).
Qed.

(** [head.csv] converts: the INSERT of [head.sql] ends at VALUES. *)
Lemma header_only_reaches_write_witness :
  let sql :=
    Spec.script "head" "head" ["id"; "name"] [] in
  open_read Sample.fs_header_only "head.csv" default_encoding
  = Ok ("id,name" +:+ LF)
  /\ csv.reader ("id,name" +:+ LF) = Iterator [["id"; "name"]] None
  /\ _values_str Sample.fs_header_only "head.csv" default_encoding
     = Ok EmptyString
  /\ csv_postgresql Sample.fs_header_only "head.csv" "" "" UTF8
     = (<["head.sql" := Codec.utf8_encode sql]> Sample.fs_header_only, Ok tt).
Proof.
  cbv zeta.
  split; [vm_compute; reflexivity |]. split; [vm_compute; reflexivity |].
  pose proof (header_only_reaches_write Sample.fs_header_only "head.csv" "" ""
                UTF8 ("id,name" +:+ LF) ["id"; "name"]
                eq_refl eq_refl) as (Hvalues & _ & _ & Hrun & _).
  cbv zeta in Hrun.
  split; [exact Hvalues |]. rewrite Hrun. vm_compute. reflexivity.
Defined.

(** ** A file without any record *)

Lemma fmap_string_nonempty (c : ascii) (o : option string) :
  String c <$> o <> Some EmptyString.
Proof. destruct o; discriminate. Qed.

Lemma decode_empty (enc : encoding) (bytes : list byte) :
  Codec.decode enc bytes = Some EmptyString -> bytes = [].
Proof.
  destruct bytes as [|b r]; [reflexivity |]. intros H. exfalso.
  destruct enc; simpl in H.
  - destruct (Byte.to_N b <? 128)%N.
    + exact (fmap_string_nonempty _ _ H).
    + destruct ((Byte.to_N b =? 194) || (Byte.to_N b =? 195))%N;
        [| discriminate].
      destruct r as [|b2 r2]; [discriminate |].
      destruct (Codec.is_continuation b2); [| discriminate].
      exact (fmap_string_nonempty _ _ H).
  - discriminate.
  - destruct (Byte.to_N b <? 128)%N; [| discriminate].
    exact (fmap_string_nonempty _ _ H).
Qed.

Lemma lines_acc_nil (cur s : string) :
  lines_acc cur s = [] -> cur = EmptyString /\ s = EmptyString.
Proof.
  revert cur; induction s as [|c r IH]; intros cur; simpl.
  - destruct (String.eqb_spec cur EmptyString); [auto | discriminate].
  - destruct (Ascii.eqb c "010"); [discriminate |].
    destruct (Ascii.eqb c "013").
    + destruct r as [|c2 r2]; [discriminate |].
      destruct (Ascii.eqb c2 "010"); discriminate.
    + intros H. apply IH in H as [H _].
      apply append_nil_inv in H as [_ H]. discriminate.
Qed.

(** A line leaves the parser at the start of a record or inside a quoted
    field. *)
Lemma process_line_state (l : string) (p p' : csv.parser) :
  csv.process_line p l = Ok p' ->
  csv.at_start p' = true \/ csv.in_quoted p' = true.
Proof.
  revert p; induction l as [|c r IH]; intros p; simpl.
  - unfold csv.process_char, csv.at_start, csv.in_quoted.
    destruct p as [[] fs f n]; simpl; intros [= <-]; simpl; auto.
  - destruct (csv.process_char p (csv.Ch c)) as [q|e]; simpl;
      [apply IH | discriminate].
Qed.

Lemma read_rows_in_quoted (ls : list string) (p : csv.parser) :
  csv.in_quoted p = true -> csv.read_rows p ls <> Iterator [] None.
Proof.
  revert p; induction ls as [|l rest IH]; intros p Hq; simpl.
  - rewrite Hq, orb_true_r. discriminate.
  - destruct (csv.process_line p l) as [p'|e] eqn:Hl; [| discriminate].
    destruct (csv.at_start p') eqn:Hs; [discriminate |].
    apply IH. destruct (process_line_state _ _ _ Hl); congruence.
Qed.

Lemma read_rows_reset_nil (ls : list string) :
  csv.read_rows csv.reset ls = Iterator [] None -> ls = [].
Proof.
  destruct ls as [|l rest]; [reflexivity |]. simpl.
  destruct (csv.process_line csv.reset l) as [p'|e] eqn:Hl; [| discriminate].
  destruct (csv.at_start p') eqn:Hs; [discriminate |].
  intros H. exfalso. revert H. apply read_rows_in_quoted.
  destruct (process_line_state _ _ _ Hl); congruence.
Qed.

(** A text without any record is the empty text. *)
Lemma reader_no_record (text : string) :
  csv.reader text = Iterator [] None -> text = EmptyString.
Proof.
  unfold csv.reader. intros H%read_rows_reset_nil.
  now apply lines_acc_nil in H as [_ H].
Qed.

(** A file without any record, in whatever encoding it is read, has no
    byte. *)
Lemma no_record_no_byte fs file enc text :
  open_read fs file enc = Ok text ->
  csv.reader text = Iterator [] None ->
  fs !! file = Some [].
Proof.
  unfold open_read. intros Hread ->%reader_no_record.
  destruct (fs !! file) as [bytes|]; [| discriminate].
  destruct (Codec.decode enc bytes) as [text|] eqn:Hd; [| discriminate].
  injection Hread as ->. now rewrite (decode_empty _ _ Hd).
Qed.

(** C8: for a source file without any record, the header reader raises
    StopIteration, and so does the conversion, which leaves the file system
    as it was: no output file is written. *)
Theorem no_record_stop_iteration fs file enc0 text :
  open_read fs file enc0 = Ok text ->
  csv.reader text = Iterator [] None ->
  (forall enc, _get_header fs file enc = Raise StopIteration)
  /\ (forall schema_name table_name enc,
        csv_postgresql fs file schema_name table_name enc
        = (fs, Raise StopIteration)).
Proof.
  intros Hread Hrows.
  pose proof (no_record_no_byte _ _ _ _ Hread Hrows) as Hfile.
  assert (Hhead : forall enc, _get_header fs file enc = Raise StopIteration).
  { intros enc. unfold _get_header, open_read. rewrite Hfile.
    destruct enc; reflexivity. }
  split; [exact Hhead |].
  intros schema_name table_name enc. unfold csv_postgresql. cbv zeta.
  now rewrite Hhead.
Qed.

Lemma no_record_stop_iteration_witness :
  open_read Sample.fs_empty "empty.csv" Latin1 = Ok EmptyString
  /\ csv.reader EmptyString = Iterator [] None
  /\ _get_header Sample.fs_empty "empty.csv" UTF8 = Raise StopIteration
  /\ csv_postgresql Sample.fs_empty "empty.csv" "" "" Latin1
     = (Sample.fs_empty, Raise StopIteration).
Proof.
  split; [vm_compute; reflexivity |]. split; [vm_compute; reflexivity |].
  pose proof (no_record_stop_iteration Sample.fs_empty "empty.csv" Latin1
                EmptyString eq_refl eq_refl) as [Hhead Hrun].
  split; [apply Hhead | apply Hrun].
Defined.

(** ** Two runs on the same input *)

Lemma open_read_ext (fs fs' : filesystem) file enc :
  fs' !! file = fs !! file -> open_read fs' file enc = open_read fs file enc.
Proof. unfold open_read. now intros ->. Qed.

Lemma get_header_ext (fs fs' : filesystem) file enc :
  fs' !! file = fs !! file ->
  _get_header fs' file enc = _get_header fs file enc.
Proof. intros H. unfold _get_header. now rewrite (open_read_ext _ _ _ _ H). Qed.

Lemma values_str_ext (fs fs' : filesystem) file enc :
  fs' !! file = fs !! file ->
  _values_str fs' file enc = _values_str fs file enc.
Proof. intros H. unfold _values_str. now rewrite (open_read_ext _ _ _ _ H). Qed.

(** A successful run writes bytes that depend on the content of the source
    file and on the arguments only. *)
Lemma csv_postgresql_same_bytes
    (fs fs1 fs' : filesystem) file schema_name table_name enc :
  csv_postgresql fs file schema_name table_name enc = (fs1, Ok tt) ->
  fs' !! file = fs !! file ->
  exists bytes,
    fs1 = <[filename file +:+ ".sql" := bytes]> fs
    /\ csv_postgresql fs' file schema_name table_name enc
       = (<[filename file +:+ ".sql" := bytes]> fs', Ok tt).
Proof.
  intros Hrun Hsame. unfold csv_postgresql in *. cbv zeta in *.
  rewrite (get_header_ext _ _ _ _ Hsame), (values_str_ext _ _ _ _ Hsame).
  destruct (_get_header fs file default_encoding) as [header|e];
    [| discriminate].
  destruct (_values_str fs file default_encoding) as [values|e];
    [| discriminate].
  unfold open_write in *.
  match goal with
  | H : context [Codec.encode ?e ?t] |- _ =>
      destruct (Codec.encode e t) as [bytes|]; [| discriminate]
  end.
  injection Hrun as <-. exists bytes. split; reflexivity.
Qed.

(** C9: when a run has succeeded, any run with the same arguments on a file
    system where the source file has the same content succeeds too and
    writes the same bytes to the same output file; in particular the second
    of two runs in a row, the source file being still what it was, leaves
    the file system exactly as the first run left it. *)
Theorem csv_postgresql_deterministic
    (fs fs1 : filesystem) file schema_name table_name enc :
  csv_postgresql fs file schema_name table_name enc = (fs1, Ok tt) ->
  (forall fs' : filesystem,
      fs' !! file = fs !! file ->
      exists fs2 : filesystem,
        csv_postgresql fs' file schema_name table_name enc = (fs2, Ok tt)
        /\ fs2 !! (filename file +:+ ".sql")
           = fs1 !! (filename file +:+ ".sql"))
  /\ (fs1 !! file = fs !! file ->
      csv_postgresql fs1 file schema_name table_name enc = (fs1, Ok tt)).
Proof.
  intros Hrun. split.
  - intros fs' Hsame.
    destruct (csv_postgresql_same_bytes _ _ _ _ _ _ _ Hrun Hsame)
      as (bytes & -> & Hrun').
    eexists. split; [exact Hrun' |]. now rewrite !lookup_insert_eq.
  - intros Hsame.
    destruct (csv_postgresql_same_bytes _ _ _ _ _ _ _ Hrun Hsame)
      as (bytes & Hfs1 & Hrun').
    rewrite Hrun'. f_equal. rewrite Hfs1. apply insert_insert_eq.
Qed.

Lemma csv_postgresql_deterministic_witness :
  let fs1 := fst (csv_postgresql Sample.fs_a "a.csv" "" "" UTF8) in
  csv_postgresql Sample.fs_a "a.csv" "" "" UTF8 = (fs1, Ok tt)
  /\ fs1 !! "a.csv" = Sample.fs_a !! "a.csv"
  /\ csv_postgresql fs1 "a.csv" "" "" UTF8 = (fs1, Ok tt).
Proof.
  cbv zeta.
  assert (Hrun : csv_postgresql Sample.fs_a "a.csv" "" "" UTF8
                 = (fst (csv_postgresql Sample.fs_a "a.csv" "" "" UTF8), Ok tt))
    by (vm_compute; reflexivity).
  assert (Hsame : fst (csv_postgresql Sample.fs_a "a.csv" "" "" UTF8) !! "a.csv"
                  = Sample.fs_a !! "a.csv")
    by (vm_compute; reflexivity).
  split; [exact Hrun |]. split; [exact Hsame |].
  exact (proj2 (csv_postgresql_deterministic _ _ _ _ _ _ Hrun) Hsame).
Defined.

(** ** The encoding of the reads *)

(** C1 fails on the code: [cafe.csv] is written in Latin-1 and the caller
    passes Latin-1.  Read in that encoding, as the header reader and the
    value formatter do when they are given it, the file has the header
    [café] and the row [1]; the conversion calls both without the encoding,
    reads the file as UTF-8 and raises a decoding error. *)
Theorem csv_postgresql_reads_in_default_encoding :
  _get_header Sample.fs_latin1 "cafe.csv" Latin1 = Ok [Sample.cafe]
  /\ _values_str Sample.fs_latin1 "cafe.csv" Latin1
     = Ok (LF +:+ TAB +:+ "('1')")
  /\ csv_postgresql Sample.fs_latin1 "cafe.csv" "" "" Latin1
     = (Sample.fs_latin1, Raise UnicodeDecodeError).
Proof. repeat split; vm_compute; reflexivity. Qed.

(** ** The summary without [to_skip_cols] *)

(** C10: with [to_skip_cols] unset the call raises the unbound-variable
    error, whatever the frame, the other arguments and the statistics of
    pandas are; no summary is returned. *)
Theorem dataframe_info_unset_skip_unbound
    `{summary.Pandas} (df : summary.dataframe)
    (unique_count_cols verbose_cols : option (list string)) :
  summary.dataframe_info df None unique_count_cols verbose_cols
  = Raise UnboundLocalError.
Proof. reflexivity. Qed.

(** With [to_skip_cols] set, even to the empty list, the summary is
    returned. *)
Lemma dataframe_info_empty_skip :
  let P := summary.list_pandas in
  summary.dataframe_info Sample.frame (Some []) None None
  = Ok [("Columns", [summary.Name "x"; summary.Name "y"]);
        ("Data Type", [summary.Val (summary.VStr "int64" : summary.value);
                       summary.Val (summary.VStr "int64" : summary.value)]);
        ("Non-Null Count", [summary.Val (summary.VInt 2 : summary.value);
                            summary.Val (summary.VInt 3 : summary.value)])].
Proof. vm_compute. reflexivity. Qed.

(** * Further properties of [csv_sql.py] *)

(** ** Character tables *)

Lemma lower_char_idempotent (c : ascii) :
  Py.lower_char (Py.lower_char c) = Py.lower_char c.
Proof. destruct c as [[] [] [] [] [] [] [] []]; reflexivity. Qed.

Lemma sep_class_lower_char (c : ascii) :
  sep_class (Py.lower_char c) = sep_class c.
Proof. destruct c as [[] [] [] [] [] [] [] []]; reflexivity. Qed.

Lemma stem_char_lower_char (c : ascii) :
  Spec.stem_char (Py.lower_char c) = Spec.stem_char c.
Proof. destruct c as [[] [] [] [] [] [] [] []]; reflexivity. Qed.

Lemma lower_idempotent (s : string) : Py.lower (Py.lower s) = Py.lower s.
Proof.
  induction s as [|c r IH]; [reflexivity |]. simpl.
  now rewrite lower_char_idempotent, IH.
Qed.

Lemma sub_sep_cons (c : ascii) (r : string) :
  sub_sep (String c r)
  = if sep_class c then String "_" (sub_sep r) else String c (sub_sep r).
Proof. unfold sub_sep. simpl. destruct (sep_class c); reflexivity. Qed.

(** ** The two orders of normalisation *)

Lemma lower_sub_sep (s : string) :
  Py.lower (sub_sep s) = sub_sep (Py.lower s).
Proof.
  induction s as [|c r IH]; [reflexivity |].
  simpl Py.lower at 2. rewrite !sub_sep_cons, sep_class_lower_char.
  destruct (sep_class c); simpl; now rewrite IH.
Qed.

(** The derived name is lowercased and then substituted, the override is
    substituted and then lowercased: the two orders give the same string. *)
Theorem lower_sub_sep_commute (s : string) :
  Py.lower (sub_sep s) = sub_sep (Py.lower s).
Proof.
  induction s as [|c r IH]; [reflexivity |].
  simpl Py.lower at 2. rewrite !sub_sep_cons, sep_class_lower_char.
  destruct (sep_class c); simpl; now rewrite IH.
Qed.

(** ** The identifier invariant *)

(** Neither a name derived from the file nor a normalised override holds a
    whitespace character or a hyphen. *)
Theorem identifier_no_separator (file name : string) :
  Spec.str_forall (fun c => negb (sep_class c)) (filename file) = true
  /\ Spec.str_forall (fun c => negb (sep_class c)) (Py.lower (sub_sep name))
     = true.
Proof.
  split; [apply sub_sep_no_separator |].
  rewrite lower_sub_sep. apply sub_sep_no_separator.
Qed.

Lemma filename_lower (file : string) : Py.lower (filename file) = filename file.
Proof.
  unfold filename. cbv zeta. now rewrite lower_sub_sep, lower_idempotent.
Qed.

(** Both are in lower case: lowering them again changes nothing. *)
Theorem identifier_lowercase (file name : string) :
  Py.lower (filename file) = filename file
  /\ Py.lower (Py.lower (sub_sep name)) = Py.lower (sub_sep name).
Proof.
  split; [| apply lower_idempotent].
  unfold filename. cbv zeta. now rewrite lower_sub_sep, lower_idempotent.
Qed.

(** ** The path of the source *)

(** The directory part of the path plays no role. *)
Theorem filename_ignores_directory (dir segment : string) :
  Spec.str_forall (Spec.not_char "/") segment = true ->
  filename (dir +:+ "/" +:+ segment) = filename segment.
Proof.
  intros Hseg. unfold filename.
  now rewrite (basename_dir dir segment Hseg), (basename_plain segment Hseg).
Qed.

Lemma filename_ignores_directory_witness :
  Spec.str_forall (Spec.not_char "/") "Sales 2024.csv" = true
  /\ filename ("/srv/in" +:+ "/" +:+ "Sales 2024.csv") = "sales_2024".
Proof.
  split; [reflexivity |].
  rewrite (filename_ignores_directory "/srv/in" "Sales 2024.csv" eq_refl).
  reflexivity.
Defined.

Lemma rfind_negative_absent (c : ascii) (s : string) :
  Py.rfind c s < 0 -> Spec.str_forall (Spec.not_char c) s = true.
Proof.
  induction s as [|a r IH]; [reflexivity |]. simpl.
  destruct (Z.leb_spec 0 (Py.rfind c r)) as [Hge | Hlt]; [lia |].
  unfold Spec.not_char at 1.
  destruct (Ascii.eqb a c); [lia |]. intros _. simpl. now apply IH.
Qed.

Lemma slice_after_rfind (c : ascii) (s : string) :
  Spec.str_forall (Spec.not_char c)
    (Py.slice_from (Z.to_nat (Py.rfind c s + 1)) s) = true.
Proof.
  induction s as [|a r IH]; [reflexivity |]. simpl Py.rfind.
  destruct (Z.leb_spec 0 (Py.rfind c r)) as [Hge | Hlt].
  - replace (Z.to_nat (Py.rfind c r + 1 + 1))
      with (S (Z.to_nat (Py.rfind c r + 1))) by lia.
    exact IH.
  - pose proof (rfind_negative_absent c r Hlt) as Habs.
    destruct (Ascii.eqb a c) eqn:Hac.
    + exact Habs.
    + simpl. unfold Spec.not_char at 1. now rewrite Hac, Habs.
Qed.

Lemma basename_no_slash (p : string) :
  Spec.str_forall (Spec.not_char "/") (Py.basename p) = true.
Proof. apply slice_after_rfind. Qed.

Lemma str_forall_slice_from (q : ascii -> bool) (n : nat) (s : string) :
  Spec.str_forall q s = true -> Spec.str_forall q (Py.slice_from n s) = true.
Proof.
  revert s; induction n as [|n IH]; intros s; [auto |].
  destruct s as [|a r]; [auto |]. simpl.
  intros [_ Hr]%andb_prop. now apply IH.
Qed.

(** The first piece of a split holds no separator and keeps whatever holds
    of all the characters. *)
Lemma split_hd_forall (q : ascii -> bool) (sep : ascii) (s : string) :
  Spec.str_forall q s = true ->
  Spec.str_forall q (hd EmptyString (Py.split sep s)) = true.
Proof.
  induction s as [|a r IH]; [reflexivity |]. simpl.
  intros [Ha Hr]%andb_prop. destruct (Ascii.eqb a sep); [reflexivity |].
  specialize (IH Hr). destruct (Py.split sep r) as [|h t]; simpl in *.
  - now rewrite Ha.
  - now rewrite Ha, IH.
Qed.

Lemma split_hd_no_sep (sep : ascii) (s : string) :
  Spec.str_forall (Spec.not_char sep) (hd EmptyString (Py.split sep s)) = true.
Proof.
  induction s as [|a r IH]; [reflexivity |]. simpl.
  destruct (Ascii.eqb a sep) eqn:Ha; [reflexivity |].
  destruct (Py.split sep r) as [|h t]; simpl in *;
    unfold Spec.not_char at 1; rewrite Ha; [reflexivity | exact IH].
Qed.

Lemma str_forall_and (p q : ascii -> bool) (s : string) :
  Spec.str_forall p s = true -> Spec.str_forall q s = true ->
  Spec.str_forall (fun c => p c && q c) s = true.
Proof.
  induction s as [|a r IH]; [reflexivity |]. simpl.
  intros [Hp Hpr]%andb_prop [Hq Hqr]%andb_prop.
  now rewrite Hp, Hq, (IH Hpr Hqr).
Qed.

Lemma str_forall_lower (q : ascii -> bool) (s : string) :
  (forall c, q (Py.lower_char c) = q c) ->
  Spec.str_forall q (Py.lower s) = Spec.str_forall q s.
Proof.
  intros Hq. induction s as [|a r IH]; [reflexivity |]. simpl.
  now rewrite Hq, IH.
Qed.

Lemma str_forall_sub_sep (q : ascii -> bool) (s : string) :
  q "_"%char = true ->
  Spec.str_forall q s = true -> Spec.str_forall q (sub_sep s) = true.
Proof.
  intros Hu. induction s as [|a r IH]; [reflexivity |].
  rewrite sub_sep_cons. simpl. intros [Ha Hr]%andb_prop.
  destruct (sep_class a); simpl; rewrite ?Hu, ?Ha; now apply IH.
Qed.

Lemma filename_stem_chars (file_path : string) :
  Spec.str_forall Spec.stem_char (filename file_path) = true.
Proof.
  unfold filename. cbv zeta.
  apply str_forall_sub_sep; [reflexivity |].
  rewrite (str_forall_lower _ _ stem_char_lower_char).
  apply str_forall_and.
  - apply split_hd_forall, basename_no_slash.
  - apply split_hd_no_sep.
Qed.

(** The name derived from a path holds neither a slash nor a dot: with its
    [.sql] the output name is a plain file name of the working directory. *)
Theorem filename_plain_name (file_path : string) :
  Spec.str_forall Spec.stem_char (filename file_path) = true.
Proof.
  unfold filename. cbv zeta.
  apply str_forall_sub_sep; [reflexivity |].
  rewrite (str_forall_lower _ _ stem_char_lower_char).
  apply str_forall_and.
  - apply split_hd_forall, basename_no_slash.
  - apply split_hd_no_sep.
Qed.

Lemma split_absent (sep : ascii) (s : string) :
  Spec.str_forall (Spec.not_char sep) s = true -> Py.split sep s = [s].
Proof.
  induction s as [|a r IH]; [reflexivity |]. simpl.
  intros [Ha Hr]%andb_prop. unfold Spec.not_char in Ha.
  apply negb_true_iff in Ha. now rewrite Ha, (IH Hr).
Qed.

Lemma sub_sep_fixed (s : string) :
  Spec.str_forall (fun c => negb (sep_class c)) s = true -> sub_sep s = s.
Proof.
  induction s as [|a r IH]; [reflexivity |]. simpl.
  intros [Ha Hr]%andb_prop. rewrite sub_sep_cons.
  apply negb_true_iff in Ha. now rewrite Ha, (IH Hr).
Qed.

(** A derived name is its own derived name: normalising twice is
    normalising once. *)
Theorem filename_idempotent (file_path : string) :
  filename (filename file_path) = filename file_path.
Proof.
  pose proof (filename_stem_chars file_path) as Hplain.
  assert (Hsep : Spec.str_forall (fun c => negb (sep_class c))
                   (filename file_path) = true)
    by apply sub_sep_no_separator.
  pose proof (filename_lower file_path) as Hlow.
  set (q := filename file_path) in *.
  assert (Hslash : Spec.str_forall (Spec.not_char "/") q = true).
  { revert Hplain. apply str_forall_weaken.
    intros c [H _]%andb_prop. exact H. }
  assert (Hdot : Spec.str_forall (Spec.not_char ".") q = true).
  { revert Hplain. apply str_forall_weaken.
    intros c [_ H]%andb_prop. exact H. }
  unfold filename at 1. cbv zeta.
  rewrite (basename_plain q Hslash), (split_absent "." q Hdot). simpl hd.
  now rewrite Hlow, (sub_sep_fixed q Hsep).
Qed.

Lemma lower_empty (s : string) : Py.lower s = EmptyString -> s = EmptyString.
Proof. destruct s; [reflexivity | discriminate]. Qed.

Lemma sub_sep_empty (s : string) : sub_sep s = EmptyString -> s = EmptyString.
Proof.
  destruct s as [|a r]; [reflexivity |]. rewrite sub_sep_cons.
  destruct (sep_class a); discriminate.
Qed.

Lemma split_hd_empty (sep : ascii) (s : string) :
  hd EmptyString (Py.split sep s) = EmptyString
  <-> s = EmptyString \/ exists r, s = String sep r.
Proof.
  destruct s as [|a r]; simpl.
  - split; auto.
  - destruct (Ascii.eqb_spec a sep) as [-> | Hne].
    + split; [intros _; right; now exists r | reflexivity].
    + split.
      * destruct (Py.split sep r); discriminate.
      * intros [H | [r' H]]; [discriminate | congruence].
Qed.

(** The derived name is empty exactly when the final path segment is empty
    (the path is empty or ends with a slash) or begins with a dot. *)
Theorem filename_empty_iff (file_path : string) :
  filename file_path = EmptyString
  <-> Py.basename file_path = EmptyString
      \/ exists r, Py.basename file_path = String "." r.
Proof.
  rewrite <- split_hd_empty. unfold filename. cbv zeta. split.
  - now intros H%sub_sep_empty%lower_empty.
  - now intros ->.
Qed.

(** ** The literal of a field *)

Lemma length_append (a b : string) :
  String.length (a +:+ b) = (String.length a + String.length b)%nat.
Proof.
  induction a as [|x a IH]; [reflexivity |].
  rewrite append_cons. simpl. now rewrite IH.
Qed.

Lemma append_cancel_r (a b c : string) : a +:+ c = b +:+ c -> a = b.
Proof.
  revert b; induction a as [|x a IH]; intros b H.
  - destruct b as [|y b]; [reflexivity |]. exfalso.
    apply (f_equal String.length) in H.
    rewrite append_nil_l, append_cons in H. simpl in H.
    rewrite length_append in H. lia.
  - destruct b as [|y b].
    + exfalso. apply (f_equal String.length) in H.
      rewrite append_nil_l, append_cons in H. simpl in H.
      rewrite length_append in H. lia.
    + rewrite !append_cons in H. injection H as -> H.
      now rewrite (IH b H).
Qed.

Lemma escape_quotes_injective (a b : string) :
  Spec.escape_quotes a = Spec.escape_quotes b -> a = b.
Proof.
  intros H. apply (f_equal Spec.unescape_quotes) in H.
  now rewrite !unescape_escape in H.
Qed.

(** Two different fields never give the same literal. *)
Theorem quote_item_injective (a b : string) :
  quote_item a = quote_item b -> a = b.
Proof.
  unfold quote_item. rewrite !replace_escape. unfold SQ.
  rewrite !append_cons, !append_nil_l. intros [= H].
  now apply append_cancel_r, escape_quotes_injective in H.
Qed.

Lemma quote_item_injective_witness :
  quote_item "O'Brien" = quote_item "O'Brien" /\ "O'Brien" = "O'Brien".
Proof.
  split; [reflexivity |].
  exact (quote_item_injective "O'Brien" "O'Brien" eq_refl).
Defined.

Lemma count_char_append (c : ascii) (a b : string) :
  Spec.count_char c (a +:+ b)
  = (Spec.count_char c a + Spec.count_char c b)%nat.
Proof.
  induction a as [|x a IH]; [reflexivity |].
  rewrite append_cons. simpl. rewrite IH. lia.
Qed.

Lemma count_char_escape (item : string) :
  Spec.count_char "'" (Spec.escape_quotes item)
  = (2 * Spec.count_char "'" item)%nat.
Proof.
  induction item as [|c r IH]; [reflexivity |]. simpl.
  destruct (Ascii.eqb c "'") eqn:Hc; simpl; rewrite ?Hc, IH; lia.
Qed.

(** The single quotes of a literal come in pairs: the two that enclose it
    and two for every single quote of the field. *)
Theorem quote_item_quotes_paired (item : string) :
  Spec.count_char "'" (quote_item item)
  = (2 + 2 * Spec.count_char "'" item)%nat.
Proof.
  unfold quote_item. rewrite replace_escape, !count_char_append.
  rewrite count_char_escape. unfold SQ. simpl. lia.
Qed.

(** ** Writing and reading back *)

Lemma utf8_decode_encode_char (c : ascii) (rest : list byte) :
  Codec.utf8_decode (Codec.utf8_encode_char c ++ rest)
  = String c <$> Codec.utf8_decode rest.
Proof. destruct c as [[] [] [] [] [] [] [] []]; reflexivity. Qed.

Lemma utf8_decode_encode (s : string) :
  Codec.utf8_decode (Codec.utf8_encode s) = Some s.
Proof.
  induction s as [|c r IH]; [reflexivity |]. simpl Codec.utf8_encode.
  now rewrite utf8_decode_encode_char, IH.
Qed.

Lemma latin1_decode_encode (s : string) :
  Codec.latin1_decode (Codec.latin1_encode s) = s.
Proof.
  induction s as [|c r IH]; [reflexivity |]. simpl.
  now rewrite ascii_of_byte_of_ascii, IH.
Qed.

Lemma byte_of_ascii_to_N (c : ascii) :
  Byte.to_N (byte_of_ascii c) = N_of_ascii c.
Proof. destruct c as [[] [] [] [] [] [] [] []]; reflexivity. Qed.

Lemma ascii_decode_encode (s : string) (bytes : list byte) :
  Codec.ascii_encode s = Some bytes -> Codec.ascii_decode bytes = Some s.
Proof.
  revert bytes; induction s as [|c r IH]; intros bytes; simpl.
  - now intros [= <-].
  - destruct (N_of_ascii c <? 128)%N eqn:Hc; [| discriminate].
    destruct (Codec.ascii_encode r) as [bs|]; [| discriminate].
    intros [= <-]. simpl.
    now rewrite byte_of_ascii_to_N, Hc, (IH bs eq_refl), ascii_of_byte_of_ascii.
Qed.

Lemma decode_encode (enc : encoding) (s : string) (bytes : list byte) :
  Codec.encode enc s = Some bytes -> Codec.decode enc bytes = Some s.
Proof.
  destruct enc; simpl.
  - intros [= <-]. apply utf8_decode_encode.
  - intros [= <-]. now rewrite latin1_decode_encode.
  - apply ascii_decode_encode.
Qed.

(** After a call that returns, the output file read in the caller's encoding
    is the script, character for character. *)
Theorem written_script_reads_back
    (fs fs1 : filesystem) file schema_name table_name enc text header rows :
  open_read fs file default_encoding = Ok text ->
  csv.reader text = Iterator (header :: rows) None ->
  csv_postgresql fs file schema_name table_name enc = (fs1, Ok tt) ->
  open_read fs1 (filename file +:+ ".sql") enc
  = Ok (Spec.script (Spec.resolve_name file schema_name)
          (Spec.resolve_name file table_name) header rows).
Proof.
  intros Hread Hrows Hrun.
  rewrite (csv_postgresql_write _ _ _ _ _ _ _ _ Hread Hrows) in Hrun.
  unfold open_write in Hrun.
  match type of Hrun with
  | context [Codec.encode enc ?t] =>
      destruct (Codec.encode enc t) as [bytes|] eqn:Henc; [| discriminate]
  end.
  injection Hrun as <-. unfold open_read.
  now rewrite lookup_insert_eq, (decode_encode _ _ _ Henc).
Qed.

Lemma written_script_reads_back_witness :
  let fs1 := fst (csv_postgresql Sample.fs_people "people.csv" "hr" "" Latin1) in
  open_read Sample.fs_people "people.csv" default_encoding
  = Ok ("id,name" +:+ LF +:+ "1,O'Brien" +:+ LF)
  /\ csv.reader ("id,name" +:+ LF +:+ "1,O'Brien" +:+ LF)
     = Iterator [["id"; "name"]; ["1"; "O'Brien"]] None
  /\ csv_postgresql Sample.fs_people "people.csv" "hr" "" Latin1 = (fs1, Ok tt)
  /\ open_read fs1 "people.sql" Latin1
     = Ok (Spec.script "hr" "people" ["id"; "name"] [["1"; "O'Brien"]]).
Proof.
  cbv zeta.
  split; [vm_compute; reflexivity |]. split; [vm_compute; reflexivity |].
  split; [vm_compute; reflexivity |].
  apply (written_script_reads_back Sample.fs_people _ "people.csv" "hr" ""
           Latin1 ("id,name" +:+ LF +:+ "1,O'Brien" +:+ LF)
           ["id"; "name"] [["1"; "O'Brien"]]);
    vm_compute; reflexivity.
Defined.

(** ** A source file that is its own output *)

(** When the path of the source is the name of the output (a file of the
    working directory named like [a.sql]), a call that returns has replaced
    the source by the script. *)
Theorem source_named_as_output_is_replaced
    (fs : filesystem) file schema_name table_name enc text header rows bytes :
  file = filename file +:+ ".sql" ->
  open_read fs file default_encoding = Ok text ->
  csv.reader text = Iterator (header :: rows) None ->
  Codec.encode enc
    (Spec.script (Spec.resolve_name file schema_name)
       (Spec.resolve_name file table_name) header rows) = Some bytes ->
  fst (csv_postgresql fs file schema_name table_name enc) !! file = Some bytes.
Proof.
  intros Hname Hread Hrows Henc.
  rewrite (csv_postgresql_write _ _ _ _ _ _ _ _ Hread Hrows).
  unfold open_write. rewrite Henc, <- Hname. simpl. apply lookup_insert_eq.
Qed.

Lemma source_named_as_output_is_replaced_witness :
  "a.sql" = filename "a.sql" +:+ ".sql"
  /\ Sample.fs_sql !! "a.sql"
     = Some (Codec.utf8_encode ("col1" +:+ LF +:+ "1" +:+ LF))
  /\ fst (csv_postgresql Sample.fs_sql "a.sql" "" "" UTF8) !! "a.sql"
     = Some (Codec.utf8_encode (Spec.script "a" "a" ["col1"] [["1"]])).
Proof.
  split; [reflexivity |]. split; [vm_compute; reflexivity |].
  apply (source_named_as_output_is_replaced Sample.fs_sql "a.sql" "" "" UTF8
           ("col1" +:+ LF +:+ "1" +:+ LF) ["col1"] [["1"]]);
    vm_compute; reflexivity.
Defined.

(** * Further properties of [summary.py] *)

Section SummaryProperties.
Context `{summary.Pandas}.
Import summary summary_spec.

(** [dataframe_info] is the two parts one after the other. *)
Lemma dataframe_info_parts df skip unique_count_cols verbose_cols :
  dataframe_info df (Some skip) unique_count_cols verbose_cols
  = (columns ← remaining_columns df skip unique_count_cols verbose_cols;
     summary_of_columns df columns unique_count_cols verbose_cols).
Proof.
  unfold dataframe_info, remaining_columns, summary_of_columns.
  destruct verbose_cols as [v|], unique_count_cols as [u|]; simpl;
    repeat match goal with
           | |- context [if ?b then _ else _] => destruct b; simpl
           end;
    try reflexivity;
    destruct (for_m _ skip (map fst df)); reflexivity.
Qed.

Lemma df_get_in (df : dataframe) (col : string) :
  In col (map fst df) -> exists s, df_get df col = Ok s.
Proof.
  induction df as [|[c s] rest IH]; simpl; [tauto |].
  destruct (String.eqb_spec c col) as [-> | Hne]; [eauto |].
  intros [Heq | Hin]; [congruence | auto].
Qed.

Lemma map_m_cell_of (df : dataframe) (f : series -> value)
    (columns : list string) :
  (forall col, In col columns -> In col (map fst df)) ->
  map_m (fun col => s ← df_get df col; Ok (Val (f s))) columns
  = Ok (map (cell_of df f) columns).
Proof.
  induction columns as [|col rest IH]; intros Hin; [reflexivity |].
  simpl. destruct (df_get_in df col (Hin col (or_introl eq_refl))) as [s Hs].
  unfold cell_of at 1. rewrite Hs. simpl.
  rewrite IH by (intros c Hc; apply Hin; now right). reflexivity.
Qed.

Lemma map_m_unique (df : dataframe) (u columns : list string) :
  (forall col, In col columns -> In col (map fst df)) ->
  map_m (fun col => if mem col u
                    then s ← df_get df col; Ok (Val (unique_count s))
                    else Ok (Val nan)) columns
  = Ok (map (fun col => if mem col u then cell_of df unique_count col
                        else Val nan) columns).
Proof.
  induction columns as [|col rest IH]; intros Hin; [reflexivity |].
  simpl. destruct (df_get_in df col (Hin col (or_introl eq_refl))) as [s Hs].
  unfold cell_of at 1. rewrite Hs.
  rewrite IH by (intros c Hc; apply Hin; now right).
  destruct (mem col u); reflexivity.
Qed.

Lemma lookup_snoc {A} (l : list A) (x : A) (k : nat) :
  length l = k -> (l ++ [x]) !! k = Some x.
Proof. intros <-. now apply list_lookup_middle. Qed.

(** One round of the loop over the columns, on a dictionary that has the
    lists of the statistics after its first entries. *)
Lemma verbose_step_block (df : dataframe) (v : list string)
    (pu : dict) (col : string) (k : nat)
    (c d n l1 l2 l3 l4 l5 l6 l7 l8 l9 l10 : list cell) :
  pu = [] \/ (exists u, pu = [("Unique Count", u)]) ->
  In col (map fst df) ->
  length l5 = k -> length l7 = k -> length l9 = k ->
  verbose_step df v
    ([("Columns", c); ("Data Type", d); ("Non-Null Count", n)] ++ pu
     ++ [("Minimum", l1); ("Maximum", l2); ("Mean", l3); ("Median", l4);
         ("75th Percentile", l5); ("75th Percentile - Unique Count", l6);
         ("90th Percentile", l7); ("90th Percentile - Unique Count", l8);
         ("95th Percentile", l9); ("95th Percentile - Unique Count", l10)])
    (k, col)
  = Ok ([("Columns", c); ("Data Type", d); ("Non-Null Count", n)] ++ pu
        ++ [("Minimum", l1 ++ [stat_cell df v 0 col]);
            ("Maximum", l2 ++ [stat_cell df v 1 col]);
            ("Mean", l3 ++ [stat_cell df v 2 col]);
            ("Median", l4 ++ [stat_cell df v 3 col]);
            ("75th Percentile", l5 ++ [stat_cell df v 4 col]);
            ("75th Percentile - Unique Count", l6 ++ [stat_cell df v 5 col]);
            ("90th Percentile", l7 ++ [stat_cell df v 6 col]);
            ("90th Percentile - Unique Count", l8 ++ [stat_cell df v 7 col]);
            ("95th Percentile", l9 ++ [stat_cell df v 8 col]);
            ("95th Percentile - Unique Count", l10 ++ [stat_cell df v 9 col])]).
Proof.
  intros Hpu Hin H5 H7 H9.
  destruct (df_get_in df col Hin) as [s Hs].
  unfold verbose_step, stat_cell, cell_of. rewrite Hs.
  destruct (mem col v).
  - unfold percentile_pair, dict_append.
    change ("75th Percentile" +:+ " - Unique Count")
      with "75th Percentile - Unique Count".
    change ("90th Percentile" +:+ " - Unique Count")
      with "90th Percentile - Unique Count".
    change ("95th Percentile" +:+ " - Unique Count")
      with "95th Percentile - Unique Count".
    destruct Hpu as [-> | [u ->]]; cbn;
      rewrite (lookup_snoc l5 _ k H5); cbn;
      rewrite (lookup_snoc l7 _ k H7); cbn;
      rewrite (lookup_snoc l9 _ k H9); reflexivity.
  - unfold dict_append. destruct Hpu as [-> | [u ->]]; reflexivity.
Qed.

Lemma snoc_app {A} (l : list A) (x : A) (r : list A) :
  (l ++ [x]) ++ r = l ++ x :: r.
Proof. now rewrite <- app_assoc. Qed.

(** The loop over the columns adds, to the list of every statistic, the
    cells of the columns in their order. *)
Lemma verbose_loop (df : dataframe) (v : list string) (pu : dict)
    (cols : list string) :
  pu = [] \/ (exists u, pu = [("Unique Count", u)]) ->
  (forall col, In col cols -> In col (map fst df)) ->
  forall (k : nat) (c d n l1 l2 l3 l4 l5 l6 l7 l8 l9 l10 : list cell),
  length l5 = k -> length l7 = k -> length l9 = k ->
  for_m (verbose_step df v) (imap (fun i col => ((k + i)%nat, col)) cols)
    ([("Columns", c); ("Data Type", d); ("Non-Null Count", n)] ++ pu
     ++ [("Minimum", l1); ("Maximum", l2); ("Mean", l3); ("Median", l4);
         ("75th Percentile", l5); ("75th Percentile - Unique Count", l6);
         ("90th Percentile", l7); ("90th Percentile - Unique Count", l8);
         ("95th Percentile", l9); ("95th Percentile - Unique Count", l10)])
  = Ok ([("Columns", c); ("Data Type", d); ("Non-Null Count", n)] ++ pu
        ++ [("Minimum", l1 ++ map (stat_cell df v 0) cols);
            ("Maximum", l2 ++ map (stat_cell df v 1) cols);
            ("Mean", l3 ++ map (stat_cell df v 2) cols);
            ("Median", l4 ++ map (stat_cell df v 3) cols);
            ("75th Percentile", l5 ++ map (stat_cell df v 4) cols);
            ("75th Percentile - Unique Count",
             l6 ++ map (stat_cell df v 5) cols);
            ("90th Percentile", l7 ++ map (stat_cell df v 6) cols);
            ("90th Percentile - Unique Count",
             l8 ++ map (stat_cell df v 7) cols);
            ("95th Percentile", l9 ++ map (stat_cell df v 8) cols);
            ("95th Percentile - Unique Count",
             l10 ++ map (stat_cell df v 9) cols)]).
Proof.
  intros Hpu. induction cols as [|col cols IH]; intros Hin k; intros.
  - simpl. now rewrite !app_nil_r.
  - cbn [imap for_m]. rewrite Nat.add_0_r.
    rewrite (verbose_step_block df v pu col k) by (auto; apply Hin; now left).
    cbn [mbind result_bind].
    rewrite (imap_ext _ (fun i col => ((S k + i)%nat, col)))
      by (intros i x _; simpl; f_equal; lia).
    rewrite IH; [| intros c0 Hc0; apply Hin; now right
                 | rewrite length_app; simpl; lia ..].
    cbn [map]. now rewrite !snoc_app.
Qed.

(** Once [columns] is bound to columns of the frame, the rest of
    [dataframe_info] raises nothing and returns the summary of the
    specification above. *)
Lemma summary_of_columns_expected (df : dataframe) (columns : list string)
    (unique_count_cols verbose_cols : option (list string)) :
  (forall col, In col columns -> In col (map fst df)) ->
  summary_of_columns df columns unique_count_cols verbose_cols
  = Ok (expected_summary df columns unique_count_cols verbose_cols).
Proof.
  intros Hin. unfold summary_of_columns, expected_summary.
  rewrite !(map_m_cell_of df _ columns Hin). cbn [mbind result_bind].
  destruct unique_count_cols as [u|], verbose_cols as [v|].
  - rewrite (map_m_unique df u columns Hin). cbn [mbind result_bind].
    exact (verbose_loop df v [("Unique Count", _)] columns
             (or_intror (ex_intro _ _ eq_refl)) Hin 0
             _ _ _ [] [] [] [] [] [] [] [] [] [] eq_refl eq_refl eq_refl).
  - rewrite (map_m_unique df u columns Hin). reflexivity.
  - exact (verbose_loop df v [] columns (or_introl eq_refl) Hin 0
             _ _ _ [] [] [] [] [] [] [] [] [] [] eq_refl eq_refl eq_refl).
  - reflexivity.
Qed.

(** ** The checks and the removal *)

Lemma mem_In (x : string) (l : list string) : mem x l = true <-> In x l.
Proof.
  unfold mem. rewrite existsb_exists. split.
  - intros (y & Hy & ->%String.eqb_eq). exact Hy.
  - intros Hx. exists x. split; [exact Hx | apply String.eqb_refl].
Qed.

Lemma disjoint_false (a b : list string) :
  _disjoint a b = false <-> exists x, In x a /\ In x b.
Proof.
  unfold _disjoint. rewrite negb_false_iff, existsb_exists.
  split; intros (x & Ha & Hb); exists x; split; auto; now apply mem_In.
Qed.

(** [_disjoint] is false exactly when the two lists share an element, and
    it does not depend on the order of its arguments. *)
Theorem disjoint_shares_no_element (a b : list string) :
  (_disjoint a b = false <-> exists x, In x a /\ In x b)
  /\ _disjoint a b = _disjoint b a.
Proof.
  split; [apply disjoint_false |].
  destruct (_disjoint a b) eqn:Hab, (_disjoint b a) eqn:Hba; try reflexivity.
  - apply disjoint_false in Hba as (x & Hb & Ha).
    assert (_disjoint a b = false) by (apply disjoint_false; eauto).
    congruence.
  - apply disjoint_false in Hab as (x & Ha & Hb).
    assert (_disjoint b a = false) by (apply disjoint_false; eauto).
    congruence.
Qed.

Lemma list_remove_error (x : string) (l : list string) (e : exn) :
  list_remove x l = Raise e -> e = ValueError.
Proof.
  induction l as [|y rest IH]; simpl; [now intros [= <-] |].
  destruct (String.eqb y x); [discriminate |].
  destruct (list_remove x rest); [discriminate |].
  intros [= <-]. now apply IH.
Qed.

Lemma list_remove_ok (x : string) (l l' : list string) :
  list_remove x l = Ok l' ->
  In x l /\ (forall c, In c l' -> In c l)
  /\ (NoDup l -> NoDup l' /\ ~ In x l').
Proof.
  revert l'; induction l as [|y rest IH]; intros l'; simpl; [discriminate |].
  destruct (String.eqb_spec y x) as [-> | Hne].
  - intros [= <-]. split; [now left |]. split; [intros c Hc; now right |].
    intros [Hx Hrest]%NoDup_cons. split; [exact Hrest |].
    now rewrite <- list_elem_of_In.
  - destruct (list_remove x rest) as [r|] eqn:Hr; [| discriminate].
    intros [= <-]. destruct (IH r eq_refl) as (Hx & Hsub & Hnd).
    split; [now right |]. split.
    + intros c [-> | Hc]; [now left | right; auto].
    + intros Hdup. apply NoDup_cons in Hdup as [Hy Hrest].
      destruct (Hnd Hrest) as [Hr' Hx'].
      split.
      * apply NoDup_cons. split; [| exact Hr'].
        rewrite list_elem_of_In. intros Hy'. apply Hy.
        rewrite list_elem_of_In. auto.
      * intros [Heq | Hc]; [congruence | auto].
Qed.

Lemma remove_loop_error (skip cs : list string) (e : exn) :
  for_m (fun columns col => list_remove col columns) skip cs = Raise e ->
  e = ValueError.
Proof.
  revert cs; induction skip as [|x skip IH]; intros cs; simpl;
    [discriminate |].
  destruct (list_remove x cs) as [cs1|e'] eqn:Hx; simpl.
  - apply IH.
  - intros [= <-]. exact (list_remove_error _ _ _ Hx).
Qed.

Lemma remove_loop_ok (skip cs cols : list string) :
  for_m (fun columns col => list_remove col columns) skip cs = Ok cols ->
  (forall c, In c cols -> In c cs)
  /\ (forall x, In x skip -> In x cs)
  /\ (NoDup cs -> NoDup skip).
Proof.
  revert cs; induction skip as [|x skip IH]; intros cs; simpl.
  - intros [= <-]. repeat split; auto; [tauto | constructor].
  - destruct (list_remove x cs) as [cs1|] eqn:Hx; simpl; [| discriminate].
    intros Hloop. destruct (list_remove_ok _ _ _ Hx) as (Hin & Hsub & Hnd).
    destruct (IH cs1 Hloop) as (Hcols & Hskip & Hnd').
    split; [auto |]. split.
    + intros y [<- | Hy]; auto.
    + intros Hcs. destruct (Hnd Hcs) as [Hcs1 Hx1].
      apply NoDup_cons. split; [| auto].
      rewrite list_elem_of_In. auto.
Qed.

Lemma remaining_columns_error df skip u v (e : exn) :
  remaining_columns df skip u v = Raise e -> e = ValueError.
Proof.
  unfold remaining_columns.
  destruct v as [v|]; [destruct (_disjoint skip v) |]; simpl;
    try (now intros [= <-]);
    (destruct u as [u|]; [destruct (_disjoint skip u) |]; simpl;
     try (now intros [= <-]); apply remove_loop_error).
Qed.

Lemma disjoint_true_not_in (a b : list string) (x : string) :
  _disjoint a b = true -> In x a -> ~ In x b.
Proof.
  intros Hd Ha Hb.
  assert (_disjoint a b = false) by (apply disjoint_false; eauto).
  congruence.
Qed.

Lemma remaining_columns_ok df skip u v (cols : list string) :
  remaining_columns df skip u v = Ok cols ->
  for_m (fun columns col => list_remove col columns) skip (map fst df)
  = Ok cols
  /\ (forall x v', v = Some v' -> In x skip -> ~ In x v')
  /\ (forall x u', u = Some u' -> In x skip -> ~ In x u').
Proof.
  unfold remaining_columns. intros Hrun.
  assert (Hv : forall x v', v = Some v' -> In x skip -> ~ In x v').
  { intros x v' -> . destruct (_disjoint skip v') eqn:Hd; [| discriminate].
    now apply disjoint_true_not_in. }
  assert (Hu : forall x u', u = Some u' -> In x skip -> ~ In x u').
  { intros x u' ->.
    destruct v as [v|]; [destruct (_disjoint skip v); [| discriminate] |];
      simpl in Hrun;
      (destruct (_disjoint skip u') eqn:Hd; [| discriminate]);
      now apply disjoint_true_not_in. }
  split; [| auto].
  destruct v as [v|]; [destruct (_disjoint skip v); [| discriminate] |];
    simpl in Hrun;
    (destruct u as [u|]; [destruct (_disjoint skip u); [| discriminate] |]);
    exact Hrun.
Qed.

(** The summary has as many cells in every entry as there are columns
    left. *)
Lemma expected_summary_rectangular df columns u v :
  Forall (fun entry => length (snd entry) = length columns)
    (expected_summary df columns u v).
Proof.
  unfold expected_summary. destruct u as [u|], v as [v|]; cbn;
    repeat constructor; cbn; now rewrite length_map.
Qed.

(** ** What [dataframe_info] returns and when it raises *)


(** A column named both in [to_skip_cols] and in [verbose_cols] or
    [unique_count_cols] makes the call raise [ValueError]. *)
Theorem dataframe_info_overlap df skip unique_count_cols verbose_cols
    (x : string) :
  In x skip ->
  (exists l, (verbose_cols = Some l \/ unique_count_cols = Some l) /\ In x l) ->
  dataframe_info df (Some skip) unique_count_cols verbose_cols
  = Raise ValueError.
Proof.
  intros Hskip (l & Hl & Hx). rewrite dataframe_info_parts.
  destruct (remaining_columns df skip unique_count_cols verbose_cols)
    as [cols|e] eqn:Hcols; simpl.
  - exfalso. apply remaining_columns_ok in Hcols as (_ & Hv & Hu).
    destruct Hl as [Hl | Hl]; [exact (Hv x l Hl Hskip Hx)
                               | exact (Hu x l Hl Hskip Hx)].
  - now rewrite (remaining_columns_error _ _ _ _ _ Hcols).
Qed.

(** A name in [to_skip_cols] that is no column of the frame makes the call
    raise [ValueError], and so does, for a frame with distinct column names,
    a name that [to_skip_cols] holds twice. *)
Theorem dataframe_info_bad_skip df skip unique_count_cols verbose_cols :
  (exists x, In x skip /\ ~ In x (map fst df))
  \/ (NoDup (map fst df) /\ ~ NoDup skip) ->
  dataframe_info df (Some skip) unique_count_cols verbose_cols
  = Raise ValueError.
Proof.
  intros Hbad. rewrite dataframe_info_parts.
  destruct (remaining_columns df skip unique_count_cols verbose_cols)
    as [cols|e] eqn:Hcols; simpl.
  - exfalso. apply remaining_columns_ok in Hcols as (Hloop & _).
    destruct (remove_loop_ok _ _ _ Hloop) as (_ & Hskip & Hnd).
    destruct Hbad as [(x & Hx & Hno) | [Hdf Hdup]]; auto.
  - now rewrite (remaining_columns_error _ _ _ _ _ Hcols).
Qed.

End SummaryProperties.

(** ** The theorems above on a frame of two columns *)


Lemma dataframe_info_overlap_witness :
  let P := summary.list_pandas in
  In "x" ["x"]
  /\ summary.dataframe_info Sample.frame (Some ["x"]) None (Some ["y"; "x"])
     = Raise ValueError.
Proof.
  cbv zeta. split; [now left |].
  apply (dataframe_info_overlap (H := summary.list_pandas) Sample.frame ["x"]
           None (Some ["y"; "x"]) "x"); [now left |].
  exists ["y"; "x"]. split; [now left | right; now left].
Defined.

Lemma dataframe_info_bad_skip_witness :
  let P := summary.list_pandas in
  (In "z" ["z"] /\ ~ In "z" (map fst Sample.frame))
  /\ summary.dataframe_info Sample.frame (Some ["z"]) None None
     = Raise ValueError.
Proof.
  cbv zeta.
  assert (Hz : In "z" ["z"] /\ ~ In "z" (map fst Sample.frame)).
  { split; [now left |]. simpl. intros [H | [H | []]]; discriminate. }
  split; [exact Hz |].
  apply (dataframe_info_bad_skip (H := summary.list_pandas)).
  left. exists "z". exact Hz.
Defined.
